(** * example-bot: the response lifecycle, the slyot cancel timer and the
      broadcast of a task, embedded from the Python sources

    The handlers of [handlers_admin.py], [handlers_user.py] and
    [handlers_common.py] are written as functions over an explicit world:
    the committed SQL tables, the Redis keys of the cancel timer and
    [context.bot_data].  What the Telegram API, the clock and the SQL engine
    answer during one run of a handler is an argument of the handler. *)

From stdpp Require Import gmap strings list fin_maps pretty.
From Stdlib Require Import ZArith Lia Ascii.

Local Open Scope Z_scope.

(** ** constants.py *)

Module constants.

Definition CALLBACK_USER_ACTION_PREFIX : string := "user_".
Definition CALLBACK_ADMIN_MODERATE_PREFIX : string := "admin_mod_".
Definition CALLBACK_ADMIN_SLYOT_PREFIX : string := "admin_slyot_".

Definition CB_USER_TASK_SUCCESS : string :=
  CALLBACK_USER_ACTION_PREFIX +:+ "task_success".
Definition CB_ADMIN_CONFIRM : string :=
  CALLBACK_ADMIN_MODERATE_PREFIX +:+ "confirm_".
Definition CB_ADMIN_REJECT : string :=
  CALLBACK_ADMIN_MODERATE_PREFIX +:+ "reject_".
Definition CB_ADMIN_MARK_SLYOT : string :=
  CALLBACK_ADMIN_SLYOT_PREFIX +:+ "mark_".
Definition CB_ADMIN_CANCEL_SLYOT : string :=
  CALLBACK_ADMIN_SLYOT_PREFIX +:+ "cancel_".

Definition REDIS_SLYOT_CANCEL_KEY_PREFIX : string := "slyot_cancel:".

End constants.

(** ** config.py

    [SLYOT_CANCEL_TIMEOUT_SECONDS] is read from the process environment
    (300 when unset), so it is a field of the world rather than a literal. *)

Module config.

Definition BOT_ACTIVE_STATE_KEY : string := "is_bot_globally_active".
Definition SLYOT_CANCEL_TIMEOUT_SECONDS_default : Z := 300.

End config.

(** ** database.py: the tables

    A table is a finite map from its primary key to the other columns of the
    row.  The columns that only feed message texts ([first_name], [username],
    the timestamps, the password hash) are left out. *)

Module database.

(** [users], keyed by [telegram_id]. *)
Record User := mkUser {
  is_active : bool;
  success_count : Z;
  fail_count : Z
}.

(** [tasks], keyed by [id]. *)
Record Task := mkTask {
  admin_telegram_id : Z;
  photo_file_id : string
}.

(** [responses], keyed by [id].  [status] is a [String] column. *)
Record Response := mkResponse {
  user_telegram_id : Z;
  task_id : Z;
  status : string;
  moderation_message_id : option Z;
  user_message_id : option Z
}.

(** The database: [admins] holds the primary keys of the admins table. *)
Record db := mkDb {
  users : gmap Z User;
  admins : gset Z;
  tasks : gmap Z Task;
  responses : gmap Z Response
}.

Definition set_users (f : gmap Z User → gmap Z User) (d : db) : db :=
  mkDb (f (users d)) (admins d) (tasks d) (responses d).
Definition set_tasks (f : gmap Z Task → gmap Z Task) (d : db) : db :=
  mkDb (users d) (admins d) (f (tasks d)) (responses d).
Definition set_responses (f : gmap Z Response → gmap Z Response) (d : db) : db :=
  mkDb (users d) (admins d) (tasks d) (f (responses d)).

Definition with_status (s : string) (r : Response) : Response :=
  mkResponse (user_telegram_id r) (task_id r) s
             (moderation_message_id r) (user_message_id r).
Definition with_moderation_message_id (m : option Z) (r : Response) : Response :=
  mkResponse (user_telegram_id r) (task_id r) (status r) m (user_message_id r).

Definition with_is_active (b : bool) (u : User) : User :=
  mkUser b (success_count u) (fail_count u).
Definition add_success (k : Z) (u : User) : User :=
  mkUser (is_active u) (success_count u + k) (fail_count u).
Definition add_fail (k : Z) (u : User) : User :=
  mkUser (is_active u) (success_count u) (fail_count u + k).

(** The key an autoincrement primary key gives the next row: one more than
    the largest key of the table (1 for an empty table). *)
Definition max_key {V} (m : gmap Z V) : Z :=
  map_fold (λ k _ acc, Z.max k acc) 0 m.
Definition next_id {V} (m : gmap Z V) : Z := 1 + max_key m.

End database.

Export database.

(** ** The Redis server behind [redis.StrictRedis] *)

Module redis.

(** The server as a client sees it: whether a command sent now gets through
    ([reachable]; a command raises when it is false) and the keys set with
    [setex], each with the time at which the server drops it. *)
Record redis_server := mkRedis {
  reachable : bool;
  expiry : gmap string Z
}.

(** [r.setex(key, ttl, "active")]: Redis refuses an expire time that is not
    positive; otherwise the key lives until [now + ttl].  [None] when the
    command raises. *)
Definition setex (now ttl : Z) (key : string) (r : redis_server)
  : option redis_server :=
  if reachable r && (0 <? ttl)
  then Some (mkRedis (reachable r) (<[key := now + ttl]> (expiry r)))
  else None.

(** [r.exists(key)]: [None] when the command raises. *)
Definition exists_ (now : Z) (key : string) (r : redis_server) : option bool :=
  if reachable r
  then Some (match expiry r !! key with
             | Some t => now <? t
             | None => false
             end)
  else None.

(** [r.delete(key)]: [None] when the command raises. *)
Definition delete_ (key : string) (r : redis_server) : option redis_server :=
  if reachable r
  then Some (mkRedis (reachable r) (delete key (expiry r)))
  else None.

(** What the connection does between two commands of one run: it is lost
    ([Some false]), it comes back ([Some true]), or nothing happens. *)
Definition turn (change : option bool) (r : redis_server) : redis_server :=
  match change with
  | Some up => mkRedis up (expiry r)
  | None => r
  end.

End redis.

(** ** The world and what one run of a handler is given *)

(** [store] is what the SQL engine holds committed; [history] lists every
    state a successful commit has produced, oldest first. *)
Record world := mkWorld {
  store : db;
  history : list db;
  redis_client : option redis.redis_server;  (* [None]: the connection at import time failed *)
  bot_data : gmap string bool;
  SLYOT_CANCEL_TIMEOUT_SECONDS : Z
}.

Definition set_redis (rc : option redis.redis_server) (w : world) : world :=
  mkWorld (store w) (history w) rc (bot_data w) (SLYOT_CANCEL_TIMEOUT_SECONDS w).
Definition set_bot_data (b : gmap string bool) (w : world) : world :=
  mkWorld (store w) (history w) (redis_client w) b (SLYOT_CANCEL_TIMEOUT_SECONDS w).

(** What a Telegram call raises.  [BadRequest] and [Forbidden] are
    subclasses of [TelegramError]; [TelegramError] here is any other one, and
    [OtherException] anything that is not a [TelegramError].  The flag of
    [BadRequest] says whether its text contains "message is not modified". *)
Inductive tg_exc :=
| BadRequest (not_modified : bool)
| Forbidden
| TelegramError
| OtherException.

(** The answers of the outside during one run of a handler. *)
Record env := mkEnv {
  now : Z;
  commit_ok : bool;
  send_photo : Z → Z + tg_exc;
  send_message : Z → option tg_exc;
  reply_text : option tg_exc;
  edit_message_caption : option tg_exc;
  edit_message_text : option tg_exc;
  edit_message_reply_markup : option tg_exc;
  redis_between : option bool  (* the connection to Redis between the run's
                                  first and second command, see [redis.turn] *)
}.

(** [await session.commit()] of the session state [d]: the engine either
    takes it, or raises and keeps what it had (the rollback of
    [get_session]). *)
Definition commit (e : env) (d : db) (w : world) : option world :=
  if commit_ok e
  then Some (mkWorld d (history w ++ [d]) (redis_client w) (bot_data w)
                     (SLYOT_CANCEL_TIMEOUT_SECONDS w))
  else None.

(** ** utils.py: the timer helpers, the admin check and the global flag *)

Module utils.

Definition get_redis_client (rc : option redis.redis_server)
  : option redis.redis_server := rc.

Definition timer_key (response_id : Z) : string :=
  constants.REDIS_SLYOT_CANCEL_KEY_PREFIX +:+ pretty response_id.

Definition set_slyot_cancel_timer (now ttl : Z) (response_id : Z)
    (rc : option redis.redis_server) : bool * option redis.redis_server :=
  match get_redis_client rc with
  | Some r =>
      match redis.setex now ttl (timer_key response_id) r with
      | Some r' => (true, Some r')
      | None => (false, rc)
      end
  | None => (false, rc)
  end.

Definition check_slyot_cancel_timer (now : Z) (response_id : Z)
    (rc : option redis.redis_server) : bool :=
  match get_redis_client rc with
  | Some r =>
      match redis.exists_ now (timer_key response_id) r with
      | Some b => b
      | None => false
      end
  | None => false
  end.

Definition clear_slyot_cancel_timer (response_id : Z)
    (rc : option redis.redis_server) : option redis.redis_server :=
  match get_redis_client rc with
  | Some r =>
      match redis.delete_ (timer_key response_id) r with
      | Some r' => Some r'
      | None => rc
      end
  | None => rc
  end.

(** The decorator: [func] runs only for a caller found in the admins
    table; anybody else gets [denied] and nothing happens. *)
Definition admin_required {R} (denied : R) (caller : Z)
    (func : world → R * world) (w : world) : R * world :=
  if bool_decide (caller ∈ admins (store w)) then func w else (denied, w).

(** [context.bot_data.get(config.BOT_ACTIVE_STATE_KEY, True)] *)
Definition is_bot_globally_active (w : world) : bool :=
  default true (bot_data w !! config.BOT_ACTIVE_STATE_KEY).

Definition set_bot_globally_active (active : bool) (w : world) : world :=
  set_bot_data (<[config.BOT_ACTIVE_STATE_KEY := active]> (bot_data w)) w.

End utils.

(** ** handlers_admin.py

    [handle_admin_moderation] and [handle_admin_slyot_action] below are the
    two handlers from the line after their decoding on (lines 236 and 353):
    they are given [action] and [response_id] as values, whatever they are.
    The handlers as they are registered, which decode [query.data]
    themselves, are [callbacks.handle_admin_moderation] and
    [callbacks.handle_admin_slyot_action] further down; what is proved for
    every [action] here holds for the actions the decoding produces.  A
    handler returns the branch it took (the reply) together with the world
    it leaves.  A reply names the branch; the one thing it records about the
    messages sent after a commit is the exception that escaped them to the
    outer [except Exception], if any. *)

Module handlers_admin.

Inductive reply :=
| AccessDenied
| ResponseNotFound
| UserNotFound
| AlreadyProcessed (current : string)
| Confirmed (escaped : option tg_exc)
| Rejected (escaped : option tg_exc)
| NotConfirmed (current : string)
| MarkedSlyot (timer_set : bool) (escaped : option tg_exc)
| NotSlyot (current : string)
| SlyotCanceled (escaped : option tg_exc)
| CancelWindowClosed
| UnknownAction
| DatabaseError.

(** The session after [response.status = s] and the change [f] of the
    counters of [response.user]. *)
Definition transition (response_id : Z) (response : Response) (s : string)
    (user : User) (f : User → User) (d : db) : db :=
  set_responses (insert response_id (with_status s response))
    (set_users (insert (user_telegram_id response) (f user)) d).

(** Editing the admin's message after confirm or reject: "message is not
    modified" is ignored, another [BadRequest] is raised again, another
    [TelegramError] is answered with a fresh message to the admin, which is
    not guarded. *)
Definition edit_moderation_message (e : env) (admin_id : Z) : option tg_exc :=
  match edit_message_caption e with
  | None => None
  | Some (BadRequest not_modified) =>
      if not_modified then None else Some (BadRequest not_modified)
  | Some OtherException => Some OtherException
  | Some _ => send_message e admin_id
  end.

(** Editing the admin's message after a slyot action: every
    [TelegramError] is answered with a fresh message to the admin. *)
Definition edit_slyot_message (e : env) (admin_id : Z) : option tg_exc :=
  match edit_message_caption e with
  | None => None
  | Some OtherException => Some OtherException
  | Some _ => send_message e admin_id
  end.

(** The message to the user: a [TelegramError] is logged. *)
Definition notify_user (e : env) (user_id : Z) : option tg_exc :=
  match send_message e user_id with
  | Some OtherException => Some OtherException
  | _ => None
  end.

Definition and_then (first second : option tg_exc) : option tg_exc :=
  match first with
  | Some x => Some x
  | None => second
  end.

Definition handle_admin_moderation (e : env) (admin_id : Z)
    (action : string) (response_id : Z) (w : world) : reply * world :=
  match responses (store w) !! response_id with
  | None => (ResponseNotFound, w)
  | Some response =>
    match users (store w) !! user_telegram_id response with
    | None => (UserNotFound, w)
    | Some user =>
      if negb (status response =? "success_pending_admin")%string
      then (AlreadyProcessed (status response), w)
      else if (action =? constants.CB_ADMIN_CONFIRM)%string then
        match commit e (transition response_id response "confirmed"
                          user (add_success 1) (store w)) w with
        | None => (DatabaseError, w)
        | Some w' =>
            (Confirmed (and_then (edit_moderation_message e admin_id)
                                 (notify_user e (user_telegram_id response))),
             w')
        end
      else if (action =? constants.CB_ADMIN_REJECT)%string then
        match commit e (transition response_id response "rejected"
                          user (add_fail 1) (store w)) w with
        | None => (DatabaseError, w)
        | Some w' =>
            (Rejected (and_then (edit_moderation_message e admin_id)
                                (notify_user e (user_telegram_id response))),
             w')
        end
      else (UnknownAction, w)
    end
  end.

(** The check of the timer and its clearing are two Redis commands
    ([r.exists] in [check_slyot_cancel_timer], [r.delete] in
    [clear_slyot_cancel_timer]); the connection may change between them, and
    a [delete] that raises is logged and swallowed. *)
Definition handle_admin_slyot_action (e : env) (admin_id : Z)
    (action : string) (response_id : Z) (w : world) : reply * world :=
  match responses (store w) !! response_id with
  | None => (ResponseNotFound, w)
  | Some response =>
    match users (store w) !! user_telegram_id response with
    | None => (UserNotFound, w)
    | Some user =>
      if (action =? constants.CB_ADMIN_MARK_SLYOT)%string then
        if negb (status response =? "confirmed")%string
        then (NotConfirmed (status response), w)
        else
          match commit e (transition response_id response "slyot" user
                            (λ u, add_fail 1 (add_success (-1) u))
                            (store w)) w with
          | None => (DatabaseError, w)
          | Some w' =>
              let '(timer_set, rc) :=
                utils.set_slyot_cancel_timer (now e)
                  (SLYOT_CANCEL_TIMEOUT_SECONDS w') response_id
                  (redis_client w') in
              let warned :=
                if timer_set then None else send_message e admin_id in
              (MarkedSlyot timer_set
                 (and_then warned
                    (and_then (edit_slyot_message e admin_id)
                       (notify_user e (user_telegram_id response)))),
               set_redis rc w')
          end
      else if (action =? constants.CB_ADMIN_CANCEL_SLYOT)%string then
        if negb (status response =? "slyot")%string
        then (NotSlyot (status response), w)
        else if utils.check_slyot_cancel_timer (now e) response_id
                  (redis_client w) then
          let w1 :=
            set_redis (utils.clear_slyot_cancel_timer response_id
                         (redis.turn (redis_between e) <$> redis_client w))
                      w in
          match commit e (transition response_id response "confirmed" user
                            (λ u, add_success 1 (add_fail (-1) u))
                            (store w1)) w1 with
          | None => (DatabaseError, w1)
          | Some w' =>
              (SlyotCanceled
                 (and_then (edit_slyot_message e admin_id)
                    (notify_user e (user_telegram_id response))),
               w')
          end
        else (CancelWindowClosed, w)
      else (UnknownAction, w)
    end
  end.

(** *** send_photo_execute *)

Inductive send_reply :=
| SendAccessDenied
| PhotoMissing
| BotPaused
| NoActiveUsers
| TaskSent
| SendDatabaseError
| SendInternalError (raised : tg_exc).

(** The reply together with the handler's local variables when it ends. *)
Record send_result := mkSendResult {
  send_outcome : send_reply;
  new_task_id : option Z;
  sent_count : Z;
  failed_count : Z
}.

(** [select(User).where(User.is_active == True)]: the keys of the rows, in
    the order the engine returns them. *)
Definition active_users (d : db) : list Z :=
  (filter (λ kv, is_active kv.2 = true) (map_to_list (users d))).*1.

(** The state of the loop: the session and the two counters. *)
Record fanout := mkFanout {
  session : db;
  sent : Z;
  failed : Z
}.

(** One turn of [for user in active_users]. *)
Definition send_to_user (e : env) (task : Z) (acc : fanout) (user : Z)
  : fanout :=
  match send_photo e user with
  | inl message_id =>
      mkFanout
        (set_responses
           (insert (next_id (responses (session acc)))
              (mkResponse user task "pending_user" None (Some message_id)))
           (session acc))
        (sent acc + 1) (failed acc)
  | inr (BadRequest _) | inr Forbidden =>
      mkFanout
        (set_users (alter (with_is_active false) user) (session acc))
        (sent acc) (failed acc + 1)
  | inr TelegramError | inr OtherException =>
      mkFanout (session acc) (sent acc) (failed acc + 1)
  end.

(** [photo_file_id] is [context.user_data.get('task_photo_file_id')]; an
    empty string is as false as [None]. *)
Definition send_photo_execute (e : env) (admin_id : Z)
    (photo_file_id : option string) (w : world) : send_result * world :=
  match photo_file_id with
  | None => (mkSendResult PhotoMissing None 0 0, w)
  | Some "" => (mkSendResult PhotoMissing None 0 0, w)
  | Some photo =>
    if negb (utils.is_bot_globally_active w)
    then (mkSendResult BotPaused None 0 0, w)
    else
      let task := next_id (tasks (store w)) in
      let flushed :=
        set_tasks (insert task (mkTask admin_id photo)) (store w) in
      match active_users flushed with
      | [] =>
          match reply_text e with
          | Some x => (mkSendResult (SendInternalError x) (Some task) 0 0, w)
          | None =>
              match commit e flushed w with
              | None => (mkSendResult SendDatabaseError (Some task) 0 0, w)
              | Some w' => (mkSendResult NoActiveUsers (Some task) 0 0, w')
              end
          end
      | recipients =>
          match reply_text e with
          | Some x => (mkSendResult (SendInternalError x) (Some task) 0 0, w)
          | None =>
              let acc :=
                foldl (send_to_user e task) (mkFanout flushed 0 0)
                      recipients in
              match commit e (session acc) w with
              | None =>
                  (mkSendResult SendDatabaseError (Some task)
                     (sent acc) (failed acc), w)
              | Some w' =>
                  (mkSendResult TaskSent (Some task)
                     (sent acc) (failed acc), w')
              end
          end
      end
  end.

(** *** toggle_global_bot_status *)

Definition toggle_global_bot_status (w : world) : world :=
  utils.set_bot_globally_active (negb (utils.is_bot_globally_active w)) w.

End handlers_admin.

(** ** handlers_user.py *)

Module handlers_user.

Inductive reply :=
| ProfileNotFound
| StatusAlready (is_active : bool)
| StatusUpdated (is_active : bool)
| ResponseNotFound
| AlreadyAnswered (current : string)
| TaskNotFound
| SentForModeration (escaped : option tg_exc)
| AdminsNotNotified (escaped : option tg_exc)
| UnknownAction
| DatabaseError
| InternalError.

Definition toggle_user_bot_status (e : env) (user_id : Z)
    (should_be_active : bool) (w : world) : reply * world :=
  match users (store w) !! user_id with
  | None => (ProfileNotFound, w)
  | Some user =>
      if bool_decide (is_active user = should_be_active)
      then (StatusAlready (is_active user), w)
      else
        match commit e (set_users
                          (insert user_id (with_is_active should_be_active user))
                          (store w)) w with
        | None => (DatabaseError, w)
        | Some w' => (StatusUpdated should_be_active, w')
        end
  end.

(** [select(Response).where(user_telegram_id == user_id, task_id == task_id)] *)
Definition responses_of (user_id task : Z) (d : db) : list (Z * Response) :=
  filter (λ kv, user_telegram_id kv.2 = user_id ∧ task_id kv.2 = task)
         (map_to_list (responses d)).

(** Python's truth value of [response.moderation_message_id]. *)
Definition truthy (m : option Z) : bool :=
  match m with
  | Some x => negb (x =? 0)
  | None => false
  end.

(** One turn of [for admin in admins]: the world, the [response] object and
    [sent_to_admin].  Whatever is raised inside the [try] is logged. *)
Definition notify_admin (e : env) (response_id : Z)
    (acc : world * Response * bool) (admin : Z) : world * Response * bool :=
  let '(w, response, sent_to_admin) := acc in
  match send_photo e admin with
  | inl message_id =>
      if truthy (moderation_message_id response)
      then (w, response, true)
      else
        let response' :=
          with_moderation_message_id (Some message_id) response in
        match commit e (set_responses (insert response_id response')
                          (store w)) w with
        | Some w' => (w', response', true)
        | None => (w, response', sent_to_admin)
        end
  | inr _ => acc
  end.

(** The names bound in the module [handlers_user]: what its [import]
    statements bring in (lines 1-11), [logger] and its three functions. *)
Definition module_names : list string :=
  ["logging"; "Update"; "ContextTypes"; "select"; "SQLAlchemyError";
   "get_session"; "User"; "Response"; "Task"; "keyboards"; "constants";
   "utils"; "logger"; "toggle_user_bot_status"; "handle_user_task_response";
   "stats"].

(** Reading a global name that the module does not bind, and that is no
    builtin, raises [NameError]. *)
Definition name_bound (name : string) : bool :=
  bool_decide (name ∈ module_names).

(** The handler from the line after its decoding on (line 78), given
    [action] and [task] as values; the handler as registered is
    [callbacks.handle_user_task_response].  After the commit of
    [success_pending_admin] the handler evaluates [select(Admin)]: [Admin]
    is not bound in this module, so that line raises [NameError], which
    [except Exception] answers with a message to the user ([InternalError]);
    the commit stays.  The loop over the admins and the two commits after it
    are written out as the source has them, behind that name. *)
Definition handle_user_task_response (e : env) (user_id : Z)
    (action : string) (task : Z) (w : world) : reply * world :=
  match responses_of user_id task (store w) with
  | [] => (ResponseNotFound, w)
  | [(response_id, response)] =>
      if negb (status response =? "pending_user")%string
      then (AlreadyAnswered (status response), w)
      else
        match tasks (store w) !! task with
        | None => (TaskNotFound, w)
        | Some _ =>
          if (action =? constants.CB_USER_TASK_SUCCESS)%string then
            let response1 := with_status "success_pending_admin" response in
            match commit e (set_responses (insert response_id response1)
                              (store w)) w with
            | None => (DatabaseError, w)
            | Some w1 =>
                if negb (name_bound "Admin") then (InternalError, w1) else
                let '(w2, response2, sent_to_admin) :=
                  foldl (notify_admin e response_id) (w1, response1, false)
                        (elements (admins (store w1))) in
                if sent_to_admin then
                  (SentForModeration
                     (handlers_admin.and_then (edit_message_reply_markup e)
                        (send_message e user_id)),
                   w2)
                else
                  match commit e (set_responses
                                    (insert response_id
                                       (with_status "pending_user" response2))
                                    (store w2)) w2 with
                  | None => (DatabaseError, w2)
                  | Some w3 => (AdminsNotNotified (edit_message_text e), w3)
                  end
            end
          else (UnknownAction, w)
        end
  | _ => (DatabaseError, w)
  end.

End handlers_user.

(** ** handlers_common.py *)

Module handlers_common.

Inductive reply :=
| AdminMenu
| Registered
| WelcomeBack (is_active : bool)
| DatabaseError.

(** [/start]: a caller who is neither an admin nor a user yet becomes a
    user, active and with both counters at the column default 0. *)
Definition start (e : env) (user_id : Z) (w : world) : reply * world :=
  if bool_decide (user_id ∈ admins (store w)) then (AdminMenu, w)
  else
    match users (store w) !! user_id with
    | None =>
        match commit e (set_users (insert user_id (mkUser true 0 0))
                          (store w)) w with
        | None => (DatabaseError, w)
        | Some w' => (Registered, w')
        end
    | Some user => (WelcomeBack (is_active user), w)
    end.

End handlers_common.

(** ** bot.py: the handlers as registered

    A request is one update routed to its handler; [handle] applies the
    [admin_required] decorator where the source has it.  Between two requests
    the Redis server may become reachable or unreachable. *)

Inductive request :=
| Start (e : env) (user_id : Z)
| ToggleUser (e : env) (user_id : Z) (should_be_active : bool)
| UserTaskResponse (e : env) (user_id : Z) (action : string) (task : Z)
| SendPhoto (e : env) (admin_id : Z) (photo_file_id : option string)
| AdminModeration (e : env) (admin_id : Z) (action : string) (response_id : Z)
| AdminSlyot (e : env) (admin_id : Z) (action : string) (response_id : Z)
| ToggleGlobal (admin_id : Z)
| RedisReachable (up : bool).

Definition set_reachable (up : bool) (w : world) : world :=
  set_redis
    (match redis_client w with
     | Some r => Some (redis.mkRedis up (redis.expiry r))
     | None => None
     end) w.

Definition handle (q : request) (w : world) : world :=
  match q with
  | Start e user_id => (handlers_common.start e user_id w).2
  | ToggleUser e user_id should_be_active =>
      (handlers_user.toggle_user_bot_status e user_id should_be_active w).2
  | UserTaskResponse e user_id action task =>
      (handlers_user.handle_user_task_response e user_id action task w).2
  | SendPhoto e admin_id photo_file_id =>
      (utils.admin_required
         (handlers_admin.mkSendResult handlers_admin.SendAccessDenied None 0 0)
         admin_id
         (handlers_admin.send_photo_execute e admin_id photo_file_id) w).2
  | AdminModeration e admin_id action response_id =>
      (utils.admin_required handlers_admin.AccessDenied admin_id
         (handlers_admin.handle_admin_moderation e admin_id action response_id)
         w).2
  | AdminSlyot e admin_id action response_id =>
      (utils.admin_required handlers_admin.AccessDenied admin_id
         (handlers_admin.handle_admin_slyot_action e admin_id action
            response_id) w).2
  | ToggleGlobal admin_id =>
      (utils.admin_required tt admin_id
         (λ w, (tt, handlers_admin.toggle_global_bot_status w)) w).2
  | RedisReachable up => set_reachable up w
  end.

(** The world after the requests [qs], handled one after the other. *)
Definition run (qs : list request) (w : world) : world :=
  foldl (λ w q, handle q w) w qs.

(** The world of a fresh deployment: [init_db] has created the tables and
    added the configured admins; nothing was ever committed by a handler. *)
Definition initial_world (admin_ids : gset Z)
    (rc : option redis.redis_server) (ttl : Z) : world :=
  mkWorld (mkDb ∅ admin_ids ∅ ∅) [] rc ∅ ttl.

(** ** What the claims speak about *)

(** The responses of user [u] whose status satisfies [P]. *)
Definition counted (P : string → bool) (u : Z) (kv : Z * Response) : Prop :=
  user_telegram_id kv.2 = u ∧ P (status kv.2) = true.

Definition count_responses (P : string → bool) (u : Z)
    (m : gmap Z Response) : Z :=
  Z.of_nat (size (filter (counted P u) m)).

Definition is_confirmed (s : string) : bool := (s =? "confirmed")%string.
Definition is_failed (s : string) : bool :=
  (s =? "rejected")%string || (s =? "slyot")%string.

(** Both counters of every user equal the number of that user's responses in
    the states they stand for. *)
Definition counters_consistent (d : db) : Prop :=
  ∀ u user, users d !! u = Some user →
    success_count user = count_responses is_confirmed u (responses d) ∧
    fail_count user = count_responses is_failed u (responses d).

(** The foreign key of [responses.user_telegram_id]. *)
Definition responses_have_users (d : db) : Prop :=
  ∀ i r, responses d !! i = Some r → is_Some (users d !! user_telegram_id r).

Definition consistent (d : db) : Prop :=
  responses_have_users d ∧ counters_consistent d.

(** Whether response [r] is one of those [count_responses P u] counts. *)
Definition hit (P : string → bool) (u : Z) (r : Response) : bool :=
  bool_decide (user_telegram_id r = u) && P (status r).

Definition ind (b : bool) : Z := if b then 1 else 0.

(** ** The commits the handlers make

    [moderation from to f]: the four operator transitions, each with the
    status it starts from, the status it writes and what it does to the
    counters of the response's user. *)
Inductive moderation : string → string → (User → User) → Prop :=
| moderation_confirm :
    moderation "success_pending_admin" "confirmed" (add_success 1)
| moderation_reject :
    moderation "success_pending_admin" "rejected" (add_fail 1)
| moderation_mark_slyot :
    moderation "confirmed" "slyot" (λ u, add_fail 1 (add_success (-1) u))
| moderation_cancel_slyot :
    moderation "slyot" "confirmed" (λ u, add_success 1 (add_fail (-1) u)).

(** [step d d']: one successful [session.commit()] takes the database from
    [d] to [d'].  One constructor for each commit a handler can reach. *)
Inductive step (d : db) : db → Prop :=
| step_register u :
    users d !! u = None →
    step d (set_users (insert u (mkUser true 0 0)) d)
| step_toggle u user b :
    users d !! u = Some user →
    step d (set_users (insert u (with_is_active b user)) d)
| step_report i r :
    responses d !! i = Some r → status r = "pending_user" →
    step d (set_responses (insert i (with_status "success_pending_admin" r)) d)
| step_moderation i r user s f :
    responses d !! i = Some r →
    users d !! user_telegram_id r = Some user →
    moderation (status r) s f →
    step d (handlers_admin.transition i r s user f d)
| step_broadcast e admin_id photo :
    let task := next_id (tasks d) in
    let flushed := set_tasks (insert task (mkTask admin_id photo)) d in
    step d (handlers_admin.session
              (foldl (handlers_admin.send_to_user e task)
                     (handlers_admin.mkFanout flushed 0 0)
                     (handlers_admin.active_users flushed))).

(** [commits d l d']: the commits [l], made one after the other from [d],
    end in [d']. *)
Inductive commits : db → list db → db → Prop :=
| commits_nil d : commits d [] d
| commits_cons d d1 l d' :
    step d d1 → commits d1 l d' → commits d (d1 :: l) d'.

(** [R] holds between every committed state and the one before it. *)
Fixpoint follows (R : db → db → Prop) (d : db) (l : list db) : Prop :=
  match l with
  | [] => True
  | d' :: l' => R d d' ∧ follows R d' l'
  end.

(** The transition table of the specification. *)
Inductive table_edge : string → string → Prop :=
| edge_report : table_edge "pending_user" "success_pending_admin"
| edge_confirm : table_edge "success_pending_admin" "confirmed"
| edge_reject : table_edge "success_pending_admin" "rejected"
| edge_flag : table_edge "confirmed" "slyot"
| edge_undo : table_edge "slyot" "confirmed".

Definition valid_status (s : string) : Prop :=
  s ∈ ["pending_user"; "success_pending_admin"; "confirmed"; "rejected";
       "slyot"].

(** From [d] to [d'] no response disappears, every response keeps its
    status or moves along an edge of [E], and a response that is new starts
    in [pending_user]. *)
Definition status_moves (E : string → string → Prop) (d d' : db) : Prop :=
  (∀ i r, responses d !! i = Some r →
     ∃ r', responses d' !! i = Some r' ∧
           (status r' = status r ∨ E (status r) (status r')))
  ∧ (∀ i r', responses d !! i = None → responses d' !! i = Some r' →
       status r' = "pending_user").

(** From world [w] to world [w'] the history grew by the commits that lead
    from the store of [w] to the store of [w']. *)
Definition traces (w w' : world) : Prop :=
  ∃ l, history w' = history w ++ l ∧ commits (store w) l (store w').

(** Every response of [d] has one of the five statuses. *)
Definition valid_rows (d : db) : Prop :=
  ∀ i r, responses d !! i = Some r → valid_status (status r).

(** ** A concrete scenario

    One admin (100) and one user (1).  The user registers, the admin
    broadcasts a photo that is delivered, the user reports success. *)
Definition delivering (t : Z) : env :=
  mkEnv t true (λ chat, inl (1000 + chat)) (λ _, None) None None None None
        None.

Definition undeliverable (t : Z) : env :=
  mkEnv t true (λ _, inr TelegramError) (λ _, Some TelegramError)
        None None None None None.

Definition fresh_world : world :=
  initial_world {[100]} (Some (redis.mkRedis true ∅))
    config.SLYOT_CANCEL_TIMEOUT_SECONDS_default.

Definition report_without_admin : list request :=
  [Start (delivering 0) 1;
   SendPhoto (delivering 1) 100 (Some "photo");
   UserTaskResponse (undeliverable 2) 1 constants.CB_USER_TASK_SUCCESS 1].

Definition row (s : string) : Response :=
  mkResponse 1 1 s None (Some 1001).

Definition db_with (rows : gmap Z Response) : db :=
  mkDb {[1 := mkUser true 0 0]} {[100]} {[1 := mkTask 100 "photo"]} rows.

(** Whether the photo sent to [chat] during the run [e] arrives. *)
Definition delivered (e : env) (chat : Z) : bool :=
  match send_photo e chat with
  | inl _ => true
  | inr _ => false
  end.

(** The first state committed on the way from [w] to [w']. *)
Definition first_commit (w w' : world) : option db :=
  head (drop (length (history w)) (history w')).

(** A status written by the first commit of a run is the status the run
    leaves. *)
Definition keeps_status_write (w w' : world) : Prop :=
  ∀ d i r r',
    first_commit w w' = Some d →
    responses (store w) !! i = Some r →
    responses d !! i = Some r' →
    status r' ≠ status r →
    ∃ r'', responses (store w') !! i = Some r'' ∧ status r'' = status r'.

(** The run from [w] to [w'] made no commit, or one. *)
Definition at_most_one_commit (w w' : world) : Prop :=
  (history w' = history w ∧ store w' = store w)
  ∨ history w' = history w ++ [store w'].

(** The scenario up to the user's report, and the report. *)
Definition before_report : world :=
  run (take 2 report_without_admin) fresh_world.

Definition report_notified : request :=
  UserTaskResponse (delivering 2) 1 constants.CB_USER_TASK_SUCCESS 1.

(** The timer store cannot be reached: there is no client, or its commands
    raise. *)
Definition timer_unreachable (rc : option redis.redis_server) : bool :=
  match rc with
  | Some r => negb (redis.reachable r)
  | None => true
  end.

(** The Redis key of the timer of [response_id] is not set. *)
Definition key_absent (response_id : Z) (rc : option redis.redis_server)
  : Prop :=
  match rc with
  | Some r => redis.expiry r !! utils.timer_key response_id = None
  | None => True
  end.

(** A run in which the commit fails. *)
Definition failing_commit (t : Z) : env :=
  mkEnv t false (λ chat, inl (1000 + chat)) (λ _, None) None None None None
        None.

(** The fresh deployment after the admin has stopped the bot globally. *)
Definition paused_world : world := handle (ToggleGlobal 100) fresh_world.

(** The send to [chat] fails with [BadRequest] or [Forbidden]: the user has
    blocked the bot or the chat does not exist. *)
Definition permanent_failure (e : env) (chat : Z) : bool :=
  match send_photo e chat with
  | inr (BadRequest _) | inr Forbidden => true
  | _ => false
  end.

Definition any_status (s : string) : bool := true.

(** Three active users; during the run [blocked_2] the bot is blocked by
    user 2 and reaches the others. *)
Definition three_users : world :=
  run [Start (delivering 0) 1; Start (delivering 0) 2; Start (delivering 0) 3]
      fresh_world.

Definition blocked_2 : env :=
  mkEnv 1 true (λ chat, if chat =? 2 then inr Forbidden else inl (1000 + chat))
        (λ _, None) None None None None None.

(** * More of the code

    ** Python's [str.split] with a one-character separator, and [int] *)

Module python.

(** The text before the first [sep] and, when there is one, the text after
    it. *)
Fixpoint split_once (sep : Ascii.ascii) (s : string) : string * option string :=
  match s with
  | EmptyString => (EmptyString, None)
  | String c s' =>
      if Ascii.eqb c sep then (EmptyString, Some s')
      else let '(before, after) := split_once sep s' in
           (String c before, after)
  end.

(** [s.split(sep, maxsplit)]: at most [maxsplit] splits, the rest of the
    string is the last element. *)
Fixpoint split (sep : Ascii.ascii) (maxsplit : nat) (s : string) : list string :=
  match maxsplit with
  | O => [s]
  | S n =>
      match split_once sep s with
      | (before, None) => [before]
      | (before, Some after) => before :: split sep n after
      end
  end.

(** [int(text)] for a [str] of ASCII characters, in base 10: white space
    around, one sign, decimal digits with single underscores between them.
    [None] is [ValueError].  (Texts of 4300 digits and more, which the
    interpreter refuses, are longer than any callback data.) *)
Definition code (c : Ascii.ascii) : Z := Z.of_nat (Ascii.nat_of_ascii c).

Definition is_space (c : Ascii.ascii) : bool :=
  (9 <=? code c) && (code c <=? 13) || (28 <=? code c) && (code c <=? 32).

Definition digit (c : Ascii.ascii) : option Z :=
  if (48 <=? code c) && (code c <=? 57) then Some (code c - 48) else None.

Fixpoint all_space (s : string) : bool :=
  match s with
  | EmptyString => true
  | String c s' => is_space c && all_space s'
  end.

Fixpoint lstrip (s : string) : string :=
  match s with
  | EmptyString => EmptyString
  | String c s' => if is_space c then lstrip s' else s
  end.

(** The digits: [after_digit] says whether the character before was a
    digit, which an underscore and the end of the number need. *)
Fixpoint digits (after_digit : bool) (acc : Z) (s : string) : option Z :=
  match s with
  | EmptyString => if after_digit then Some acc else None
  | String c s' =>
      match digit c with
      | Some d => digits true (10 * acc + d) s'
      | None =>
          if negb after_digit then None
          else if Ascii.eqb c "_" then digits false acc s'
          else if all_space s then Some acc else None
      end
  end.

Definition int (text : string) : option Z :=
  match lstrip text with
  | String "+" s => digits false 0 s
  | String "-" s => Z.opp <$> digits false 0 s
  | s => digits false 0 s
  end.

End python.

(** ** keyboards.py: the callback data of the inline buttons *)

Module keyboards.

Definition get_user_task_response_keyboard (task_id : Z) : list string :=
  [constants.CB_USER_TASK_SUCCESS +:+ "_" +:+ pretty task_id].

Definition get_admin_moderation_keyboard (response_id : Z) : list string :=
  [constants.CB_ADMIN_CONFIRM +:+ pretty response_id;
   constants.CB_ADMIN_REJECT +:+ pretty response_id].

Definition get_admin_slyot_keyboard (response_id : Z) (can_cancel : bool)
  : list string :=
  if negb can_cancel
  then [constants.CB_ADMIN_MARK_SLYOT +:+ pretty response_id]
  else [constants.CB_ADMIN_CANCEL_SLYOT +:+ pretty response_id].

End keyboards.

(** ** The callback handlers from the callback data

    The first lines of the three callback handlers split [query.data] and
    convert the last part with [int]; what they raise is caught by
    [except (ValueError, IndexError)], which reports an error and writes
    nothing.  [int_] is Python's [int] on a string, [None] when it raises
    [ValueError]; the reply is [None] for that error branch.  The two admin
    handlers are decorated with [admin_required]. *)

Module callbacks.

(** [prefix, action, response_id_str = callback_data.split('_', maxsplit=2)],
    [int(response_id_str)] and [f"{prefix}_{action}_"]. *)
Definition decode_admin (int_ : string → option Z) (callback_data : string)
  : option (string * Z) :=
  match python.split "_"%char 2 callback_data with
  | [prefix; action; response_id_str] =>
      match int_ response_id_str with
      | Some response_id =>
          Some (prefix +:+ "_" +:+ action +:+ "_", response_id)
      | None => None
      end
  | _ => None
  end.

(** [action, task_id_str = callback_data.split('_', maxsplit=2)[1:]],
    [f"{constants.CALLBACK_USER_ACTION_PREFIX}{action}"] and
    [int(task_id_str)]. *)
Definition decode_user (int_ : string → option Z) (callback_data : string)
  : option (string * Z) :=
  match tail (python.split "_"%char 2 callback_data) with
  | [action; task_id_str] =>
      match int_ task_id_str with
      | Some task_id =>
          Some (constants.CALLBACK_USER_ACTION_PREFIX +:+ action, task_id)
      | None => None
      end
  | _ => None
  end.

Definition handle_admin_moderation (int_ : string → option Z) (e : env)
    (admin_id : Z) (callback_data : string) (w : world)
  : option handlers_admin.reply * world :=
  utils.admin_required (Some handlers_admin.AccessDenied) admin_id (λ w,
  match decode_admin int_ callback_data with
  | Some (action, response_id) =>
      let '(reply, w') :=
        handlers_admin.handle_admin_moderation e admin_id action response_id
          w in
      (Some reply, w')
  | None => (None, w)
  end) w.

Definition handle_admin_slyot_action (int_ : string → option Z) (e : env)
    (admin_id : Z) (callback_data : string) (w : world)
  : option handlers_admin.reply * world :=
  utils.admin_required (Some handlers_admin.AccessDenied) admin_id (λ w,
  match decode_admin int_ callback_data with
  | Some (action, response_id) =>
      let '(reply, w') :=
        handlers_admin.handle_admin_slyot_action e admin_id action
          response_id w in
      (Some reply, w')
  | None => (None, w)
  end) w.

Definition handle_user_task_response (int_ : string → option Z) (e : env)
    (user_id : Z) (callback_data : string) (w : world)
  : option handlers_user.reply * world :=
  match decode_user int_ callback_data with
  | Some (action, task) =>
      let '(reply, w') :=
        handlers_user.handle_user_task_response e user_id action task w in
      (Some reply, w')
  | None => (None, w)
  end.

End callbacks.

(** The number of [c] in [s]. *)
Fixpoint count_char (c : Ascii.ascii) (s : string) : nat :=
  match s with
  | EmptyString => 0
  | String c' s' => (if Ascii.eqb c' c then 1 else 0) + count_char c s'
  end.

(** ** What the handlers have in common *)

(** The commit of the request's handler raises, or, in
    [send_photo_execute], the message to the admin that the sending begins
    raises, which comes before the commit.  [get_session] then rolls back
    what was flushed and raises again.  Every handler reaches one commit at
    most; the requests whose handler opens no session have none.  What is
    raised after a commit that went through is another matter: the commit
    stays, and the reply records the exception. *)
Definition commit_raises (q : request) : bool :=
  match q with
  | Start e _ | ToggleUser e _ _ | UserTaskResponse e _ _ _
  | AdminModeration e _ _ _ | AdminSlyot e _ _ _ => negb (commit_ok e)
  | SendPhoto e _ _ =>
      negb (commit_ok e) || bool_decide (is_Some (reply_text e))
  | ToggleGlobal _ | RedisReachable _ => false
  end.

(** The caller of a request whose handler is decorated with
    [admin_required]. *)
Definition decorated_caller (q : request) : option Z :=
  match q with
  | SendPhoto _ admin_id _ | AdminModeration _ admin_id _ _
  | AdminSlyot _ admin_id _ _ | ToggleGlobal admin_id => Some admin_id
  | Start _ _ | ToggleUser _ _ _ | UserTaskResponse _ _ _ _
  | RedisReachable _ => None
  end.

(** Between [d] and [d'] no response changes its user or its task. *)
Definition same_owners (d d' : db) : Prop :=
  ∀ i r, responses d !! i = Some r →
    ∃ r', responses d' !! i = Some r'
          ∧ user_telegram_id r' = user_telegram_id r
          ∧ task_id r' = task_id r.

(** No two responses are for the same user and the same task. *)
Definition unique_responses (d : db) : Prop :=
  ∀ i j r r',
    responses d !! i = Some r → responses d !! j = Some r' →
    user_telegram_id r = user_telegram_id r' → task_id r = task_id r' →
    i = j.

(** The foreign key of [responses.task_id]. *)
Definition responses_have_tasks (d : db) : Prop :=
  ∀ i r, responses d !! i = Some r → is_Some (tasks d !! task_id r).

(** The scenario continued: the admin rejects the report. *)
Definition rejected_world : world :=
  run [report_notified;
       AdminModeration (delivering 3) 100 constants.CB_ADMIN_REJECT 1]
      before_report.

Definition rejected_row : Response :=
  mkResponse 1 1 "rejected" None (Some 1001).

(** ** The statistics: [handlers_admin.global_stats], [handlers_user.stats] *)

Module statistics.

(** [select(func.sum(column))] over the users table. *)
Definition sum_users (column : User → Z) (m : gmap Z User) : Z :=
  map_fold (λ _ user acc, column user + acc) 0 m.

(** The numbers of the admin's report. *)
Record global := mkGlobal {
  bot_globally_active : bool;
  total_users_count : Z;
  active_users_count : Z;
  total_tasks : Z;
  total_success : Z;
  total_fails : Z;
  pending_moderation : Z
}.

(** The body of [global_stats].  A sum over no rows is NULL, which [or 0]
    turns into 0, the value of [sum_users]. *)
Definition global_stats (w : world) : global :=
  let d := store w in
  mkGlobal
    (utils.is_bot_globally_active w)
    (Z.of_nat (size (users d)))
    (Z.of_nat (size (filter (λ kv, is_active kv.2 = true) (users d))))
    (Z.of_nat (size (tasks d)))
    (sum_users success_count (users d))
    (sum_users fail_count (users d))
    (Z.of_nat (size (filter (λ kv, status kv.2 = "success_pending_admin")
                            (responses d)))).

(** The numbers of the user's report: [success_count], [fail_count] and
    [rating]; [None] when the caller has no profile. *)
Definition stats (user_id : Z) (w : world) : option (Z * Z * Z) :=
  match users (store w) !! user_id with
  | Some user =>
      Some (success_count user, fail_count user,
            success_count user - fail_count user)
  | None => None
  end.

End statistics.

(** The number of responses whose status satisfies [P]. *)
Definition count_all (P : string → bool) (m : gmap Z Response) : Z :=
  Z.of_nat (size (filter (λ kv, P (status kv.2) = true) m)).

(** The sum of [g] over the keys of the users table. *)
Definition sum_keys (g : Z → Z) (m : gmap Z User) : Z :=
  map_fold (λ k _ acc, g k + acc) 0 m.

(** The request is a press of the global toggle by one of the admins [A]. *)
Definition is_toggle_by (A : gset Z) (q : request) : bool :=
  match q with
  | ToggleGlobal admin_id => bool_decide (admin_id ∈ A)
  | _ => false
  end.

Definition toggles (A : gset Z) (qs : list request) : nat :=
  length (filter (λ q, is_toggle_by A q = true) qs).

(** The request is user [u] pressing start. *)
Definition restarts (u : Z) (q : request) : bool :=
  match q with
  | ToggleUser _ user_id true => bool_decide (user_id = u)
  | _ => false
  end.

(** The scenario: the user registers and then stops the bot. *)
Definition stopped_world : world :=
  run [Start (delivering 0) 1; ToggleUser (delivering 1) 1 false] fresh_world.

(** ** States for the button presses

    One admin (100), one user (1), one task (1) and its response (1),
    written out row by row, with a timeout of 300 seconds. *)
Definition one_response (user : User) (response : Response)
    (rc : option redis.redis_server) : world :=
  mkWorld (mkDb {[1 := user]} {[100]} {[1 := mkTask 100 "photo"]}
                {[1 := response]})
          [] rc ∅ 300.

Definition redis_up (keys : gmap string Z) : option redis.redis_server :=
  Some (redis.mkRedis true keys).

(** The user has reported success; no admin has decided yet. *)
Definition pending_operator_world : world :=
  one_response (mkUser true 0 0)
    (mkResponse 1 1 "success_pending_admin" (Some 1100) (Some 1001))
    (redis_up ∅).

(** The report is confirmed; in the second world there is no connection to
    Redis. *)
Definition confirmed_world : world :=
  one_response (mkUser true 1 0)
    (mkResponse 1 1 "confirmed" (Some 1100) (Some 1001)) (redis_up ∅).

Definition confirmed_world_without_redis : world :=
  one_response (mkUser true 1 0)
    (mkResponse 1 1 "confirmed" (Some 1100) (Some 1001)) None.

(** The response was marked as slyot at time 4: the timer runs until 304. *)
Definition slyot_world : world :=
  one_response (mkUser true 0 1)
    (mkResponse 1 1 "slyot" (Some 1100) (Some 1001))
    (redis_up {[utils.timer_key 1 := 304]}).

(** * Proofs *)

Example timer_key_7 : utils.timer_key 7 = "slyot_cancel:7".
Proof. reflexivity. Qed.

Example next_id_empty : next_id (∅ : gmap Z Task) = 1.
Proof. reflexivity. Qed.

Example next_id_two :
  next_id (<[5 := mkTask 1 "f"]> (<[2 := mkTask 1 "g"]> ∅) : gmap Z Task) = 6.
Proof. vm_compute. reflexivity. Qed.

(** ** Fresh keys *)

Lemma max_key_ge {V} (m : gmap Z V) k :
  is_Some (m !! k) → k ≤ max_key m.
Proof.
  unfold max_key. revert k.
  apply (map_fold_weak_ind (λ acc (m : gmap Z V),
           ∀ k, is_Some (m !! k) → k ≤ acc)).
  - intros k [v Hv]. by rewrite lookup_empty in Hv.
  - intros i x m' acc Hi IH k Hk.
    destruct (decide (k = i)) as [->|Hne]; [lia|].
    rewrite lookup_insert_ne in Hk by done.
    specialize (IH k Hk). lia.
Qed.

Lemma next_id_fresh {V} (m : gmap Z V) : m !! next_id m = None.
Proof.
  destruct (m !! next_id m) as [v|] eqn:Hv; [|done].
  assert (next_id m ≤ max_key m) by (apply max_key_ge; eauto).
  unfold next_id in *. lia.
Qed.


Lemma transition_response response_id response s user f d :
  responses (handlers_admin.transition response_id response s user f d) !! response_id
  = Some (with_status s response).
Proof. apply lookup_insert_eq. Qed.

Lemma transition_user response_id response s user f d :
  users (handlers_admin.transition response_id response s user f d)
    !! user_telegram_id response
  = Some (f user).
Proof. apply lookup_insert_eq. Qed.

(** ** Counting responses *)

Lemma counted_hit P u i r : counted P u (i, r) ↔ hit P u r = true.
Proof.
  unfold counted, hit. simpl.
  rewrite andb_true_iff, bool_decide_eq_true. done.
Qed.

Lemma filter_lookup_hit P u (m : gmap Z Response) i :
  filter (counted P u) m !! i
  = match m !! i with
    | Some r => if hit P u r then Some r else None
    | None => None
    end.
Proof.
  destruct (m !! i) as [r|] eqn:Hm.
  - destruct (hit P u r) eqn:Hh.
    + apply map_lookup_filter_Some. split; [done|]. by apply counted_hit.
    + apply map_lookup_filter_None. right. intros r' Hr' Hc.
      simplify_eq. apply counted_hit in Hc. congruence.
  - apply map_lookup_filter_None. by left.
Qed.

Lemma count_insert P u (m : gmap Z Response) i r' :
  count_responses P u (<[i:=r']> m)
  = count_responses P u m
    - ind (from_option (hit P u) false (m !! i)) + ind (hit P u r').
Proof.
  unfold count_responses. rewrite map_filter_insert.
  pose proof (filter_lookup_hit P u m i) as Hl.
  destruct (decide (counted P u (i, r'))) as [Hc|Hc].
  - apply counted_hit in Hc. rewrite Hc. rewrite map_size_insert, Hl.
    destruct (m !! i) as [r|]; simpl; [|lia].
    destruct (hit P u r); simpl; lia.
  - assert (hit P u r' = false) as ->.
    { destruct (hit P u r') eqn:Hh; [|done]. by apply (counted_hit P u i) in Hh. }
    rewrite map_filter_delete, map_size_delete, Hl.
    destruct (m !! i) as [r|] eqn:Hm; simpl; [|lia].
    destruct (hit P u r) eqn:Hh; simpl; [|lia].
    assert (size (filter (counted P u) m) ≠ 0%nat).
    { apply map_size_ne_0_lookup. exists i. rewrite filter_lookup_hit, Hm, Hh.
      eauto. }
    lia.
Qed.

Lemma count_empty P u : count_responses P u ∅ = 0.
Proof. unfold count_responses. by rewrite map_filter_empty, map_size_empty. Qed.

(** A user no response refers to has nothing counted. *)
Lemma count_no_response P u (m : gmap Z Response) :
  (∀ i r, m !! i = Some r → user_telegram_id r ≠ u) →
  count_responses P u m = 0.
Proof.
  intros Hno. unfold count_responses.
  replace (filter (counted P u) m) with (∅ : gmap Z Response);
    [by rewrite map_size_empty|].
  symmetry. apply map_empty. intros i.
  apply map_lookup_filter_None. right. intros r Hm [Hu _].
  by apply (Hno i r).
Qed.

(** ** The counters follow the responses *)

Lemma hit_same P u r r' :
  user_telegram_id r' = user_telegram_id r →
  P (status r') = P (status r) →
  hit P u r' = hit P u r.
Proof. unfold hit. by intros -> ->. Qed.

Lemma consistent_insert_response d i r r' :
  responses d !! i = Some r →
  user_telegram_id r' = user_telegram_id r →
  is_confirmed (status r') = is_confirmed (status r) →
  is_failed (status r') = is_failed (status r) →
  consistent d → consistent (set_responses (insert i r') d).
Proof.
  intros Hi Hu Hc Hf [Hfk Hcnt]. split.
  - intros j rj. simpl. rewrite lookup_insert.
    case_decide; intros ?; simplify_eq; [rewrite Hu|]; eauto.
  - intros u user Huser. simpl in *.
    rewrite !count_insert, Hi. simpl.
    rewrite (hit_same is_confirmed u r r'), (hit_same is_failed u r r') by done.
    destruct (Hcnt u user Huser). lia.
Qed.

Lemma consistent_new_response d i r' :
  responses d !! i = None →
  is_Some (users d !! user_telegram_id r') →
  is_confirmed (status r') = false →
  is_failed (status r') = false →
  consistent d → consistent (set_responses (insert i r') d).
Proof.
  intros Hi Hu Hc Hf [Hfk Hcnt]. split.
  - intros j rj. simpl. rewrite lookup_insert.
    case_decide; intros ?; simplify_eq; eauto.
  - intros u user Huser. simpl in *.
    rewrite !count_insert, Hi. unfold hit. rewrite Hc, Hf, !andb_false_r.
    simpl. destruct (Hcnt u user Huser). lia.
Qed.

Lemma consistent_transition d i r s user f :
  responses d !! i = Some r →
  users d !! user_telegram_id r = Some user →
  success_count (f user)
  = success_count user + ind (is_confirmed s) - ind (is_confirmed (status r)) →
  fail_count (f user)
  = fail_count user + ind (is_failed s) - ind (is_failed (status r)) →
  consistent d → consistent (handlers_admin.transition i r s user f d).
Proof.
  intros Hi Hu Hs Hf [Hfk Hcnt]. split.
  - intros j rj. simpl. rewrite lookup_insert.
    case_decide; intros ?; simplify_eq; simpl.
    + rewrite lookup_insert_eq. eauto.
    + rewrite lookup_insert. case_decide; eauto.
  - intros u usr. simpl. rewrite !count_insert, Hi. simpl.
    unfold hit. simpl. rewrite lookup_insert.
    case_decide as Hk; intros Husr; simplify_eq.
    + rewrite !bool_decide_eq_true_2 by done. simpl.
      destruct (Hcnt _ _ Hu). lia.
    + rewrite !bool_decide_eq_false_2 by done. simpl.
      destruct (Hcnt _ _ Husr). lia.
Qed.

Lemma consistent_update_user d u user user' :
  users d !! u = Some user →
  success_count user' = success_count user →
  fail_count user' = fail_count user →
  consistent d → consistent (set_users (insert u user') d).
Proof.
  intros Hu Hs Hf [Hfk Hcnt]. split.
  - intros j rj Hj. simpl in *. rewrite lookup_insert. case_decide; eauto.
  - intros v usr. simpl. rewrite lookup_insert.
    case_decide; intros ?; simplify_eq; [|eauto].
    rewrite Hs, Hf. eauto.
Qed.

Lemma consistent_deactivate d u :
  consistent d → consistent (set_users (alter (with_is_active false) u) d).
Proof.
  intros [Hfk Hcnt]. split.
  - intros j rj Hj. simpl in *. rewrite lookup_alter.
    destruct (Hfk j rj Hj) as [x Hx].
    case_decide; simplify_eq; rewrite Hx; simpl; eauto.
  - intros v usr. simpl. rewrite lookup_alter.
    case_decide; simplify_eq; [|eauto].
    destruct (users d !! v) as [user|] eqn:Hv; simpl; intros ?; simplify_eq.
    simpl. eauto.
Qed.

Lemma consistent_new_user d u :
  users d !! u = None →
  consistent d → consistent (set_users (insert u (mkUser true 0 0)) d).
Proof.
  intros Hu [Hfk Hcnt]. split.
  - intros j rj Hj. simpl in *. rewrite lookup_insert. case_decide; eauto.
  - intros v usr. simpl. rewrite lookup_insert.
    case_decide; intros ?; simplify_eq; [|eauto]. simpl.
    rewrite !count_no_response; [done| |];
      intros i r Hi Heq; destruct (Hfk i r Hi) as [? ?]; congruence.
Qed.

Lemma consistent_new_task d i t :
  consistent d → consistent (set_tasks (insert i t) d).
Proof. by intros [? ?]. Qed.

(** ** Every handler commits along [step] *)

Lemma commits_app d l1 d1 l2 d2 :
  commits d l1 d1 → commits d1 l2 d2 → commits d (l1 ++ l2) d2.
Proof. induction 1; simpl; [done|]. intros. econstructor; eauto. Qed.

Lemma traces_refl w : traces w w.
Proof. exists []. split; [by rewrite app_nil_r|constructor]. Qed.

Lemma traces_trans w1 w2 w3 : traces w1 w2 → traces w2 w3 → traces w1 w3.
Proof.
  intros (l1 & H1 & C1) (l2 & H2 & C2). exists (l1 ++ l2). split.
  - by rewrite H2, H1, app_assoc.
  - by eapply commits_app.
Qed.

Lemma traces_same w w' :
  store w' = store w → history w' = history w → traces w w'.
Proof.
  intros Hs Hh. exists []. rewrite Hs, Hh, app_nil_r. split; [done|constructor].
Qed.

Lemma traces_set_redis rc w : traces w (set_redis rc w).
Proof. by apply traces_same. Qed.

Lemma traces_commit e d w w' :
  commit e d w = Some w' → step (store w) d → traces w w'.
Proof.
  unfold commit. case_match; [|done]. intros ? Hstep. simplify_eq.
  exists [d]. split; [done|]. simpl. repeat econstructor. done.
Qed.

Lemma commit_store e d w w' : commit e d w = Some w' → store w' = d.
Proof. unfold commit. case_match; intros; by simplify_eq. Qed.

Lemma commit_Some_ok e d w w' : commit e d w = Some w' → commit_ok e = true.
Proof. unfold commit. by case_match. Qed.

Lemma moderation_traces e admin_id action response_id w :
  traces w
    (handlers_admin.handle_admin_moderation e admin_id action response_id w).2.
Proof.
  unfold handlers_admin.handle_admin_moderation.
  destruct (responses (store w) !! response_id) as [r|] eqn:Hr;
    [|apply traces_refl].
  destruct (users (store w) !! user_telegram_id r) as [user|] eqn:Hu;
    [|apply traces_refl].
  destruct (String.eqb_spec (status r) "success_pending_admin") as [Hst|];
    simpl; [|apply traces_refl].
  repeat case_match; simpl; try apply traces_refl.
  all: eapply traces_commit; [eassumption|].
  all: eapply step_moderation; eauto; rewrite Hst; constructor.
Qed.

Lemma slyot_traces e admin_id action response_id w :
  traces w
    (handlers_admin.handle_admin_slyot_action e admin_id action response_id
       w).2.
Proof.
  unfold handlers_admin.handle_admin_slyot_action.
  destruct (responses (store w) !! response_id) as [r|] eqn:Hr;
    [|apply traces_refl].
  destruct (users (store w) !! user_telegram_id r) as [user|] eqn:Hu;
    [|apply traces_refl].
  destruct (action =? constants.CB_ADMIN_MARK_SLYOT)%string.
  - destruct (String.eqb_spec (status r) "confirmed") as [Hst|];
      simpl; [|apply traces_refl].
    destruct (commit e _ w) as [w'|] eqn:Hc; [|apply traces_refl].
    destruct (utils.set_slyot_cancel_timer _ _ _ _) as [timer_set rc]. simpl.
    eapply traces_trans; [|apply traces_set_redis].
    eapply traces_commit; [eassumption|].
    eapply step_moderation; eauto. rewrite Hst. constructor.
  - destruct (action =? constants.CB_ADMIN_CANCEL_SLYOT)%string;
      [|apply traces_refl].
    destruct (String.eqb_spec (status r) "slyot") as [Hst|];
      simpl; [|apply traces_refl].
    destruct (utils.check_slyot_cancel_timer _ _ _); [|apply traces_refl].
    destruct (commit e _ _) as [w'|] eqn:Hc; simpl;
      [|apply traces_set_redis].
    eapply traces_trans; [apply traces_set_redis|].
    eapply traces_commit; [eassumption|].
    eapply step_moderation; eauto. rewrite Hst. constructor.
Qed.

Lemma send_photo_traces e admin_id photo_file_id w :
  traces w (handlers_admin.send_photo_execute e admin_id photo_file_id w).2.
Proof.
  unfold handlers_admin.send_photo_execute.
  destruct photo_file_id as [photo|]; [|apply traces_refl].
  destruct photo as [|c photo]; [apply traces_refl|].
  destruct (negb (utils.is_bot_globally_active w)); [apply traces_refl|].
  pose proof (step_broadcast (store w) e admin_id (String c photo)) as Hstep.
  simpl in Hstep.
  destruct (handlers_admin.active_users _) as [|u recipients] eqn:Hact.
  - destruct (reply_text e); [apply traces_refl|].
    destruct (commit e _ w) as [w'|] eqn:Hc; [|apply traces_refl].
    simpl. eapply traces_commit; [eassumption|]. done.
  - destruct (reply_text e); [apply traces_refl|].
    destruct (commit e _ w) as [w'|] eqn:Hc; [|apply traces_refl].
    simpl. eapply traces_commit; [eassumption|]. done.
Qed.

Lemma toggle_user_traces e user_id b w :
  traces w (handlers_user.toggle_user_bot_status e user_id b w).2.
Proof.
  unfold handlers_user.toggle_user_bot_status.
  destruct (users (store w) !! user_id) as [user|] eqn:Hu;
    [|apply traces_refl].
  case_bool_decide; [apply traces_refl|].
  destruct (commit e _ w) as [w'|] eqn:Hc; [|apply traces_refl].
  simpl. eapply traces_commit; [eassumption|]. by econstructor.
Qed.

Lemma start_traces e user_id w :
  traces w (handlers_common.start e user_id w).2.
Proof.
  unfold handlers_common.start.
  case_bool_decide; [apply traces_refl|].
  destruct (users (store w) !! user_id) as [user|] eqn:Hu;
    [apply traces_refl|].
  destruct (commit e _ w) as [w'|] eqn:Hc; [|apply traces_refl].
  simpl. eapply traces_commit; [eassumption|]. by econstructor.
Qed.

Lemma Admin_unbound : handlers_user.name_bound "Admin" = false.
Proof. reflexivity. Qed.

Lemma responses_of_lookup user_id task d i r l :
  handlers_user.responses_of user_id task d = (i, r) :: l →
  responses d !! i = Some r.
Proof.
  intros Heq. apply elem_of_map_to_list.
  assert ((i, r) ∈ handlers_user.responses_of user_id task d) as Hin
    by (rewrite Heq; by left).
  by apply list_elem_of_filter in Hin as [_ Hin].
Qed.

(** What a report leaves: the world as it was, or the world of its one
    commit, which puts a response from [pending_user] to
    [success_pending_admin]. *)
Lemma user_task_response_cases e user_id action task w :
  let w' :=
    (handlers_user.handle_user_task_response e user_id action task w).2 in
  w' = w
  ∨ ∃ i r,
      responses (store w) !! i = Some r ∧ status r = "pending_user"
      ∧ commit e (set_responses
                    (insert i (with_status "success_pending_admin" r))
                    (store w)) w
        = Some w'.
Proof.
  cbv zeta. unfold handlers_user.handle_user_task_response.
  rewrite Admin_unbound. cbn [negb].
  destruct (handlers_user.responses_of user_id task (store w))
    as [|[i r] [|? ?]] eqn:Hq; [by left| |by left].
  apply responses_of_lookup in Hq.
  destruct (String.eqb_spec (status r) "pending_user") as [Hst|];
    cbn [negb]; [|by left].
  destruct (tasks (store w) !! task); [|by left].
  destruct (action =? _)%string; [|by left].
  destruct (commit e _ w) as [w1|] eqn:Hc; [|by left].
  right. by exists i, r.
Qed.

Lemma user_task_response_traces e user_id action task w :
  traces w
    (handlers_user.handle_user_task_response e user_id action task w).2.
Proof.
  destruct (user_task_response_cases e user_id action task w)
    as [->|(i & r & Hi & Hst & Hc)]; [apply traces_refl|].
  eapply traces_commit; [exact Hc|]. by apply step_report.
Qed.

Lemma handle_traces q w : traces w (handle q w).
Proof.
  destruct q; simpl; unfold utils.admin_required;
    try case_bool_decide; simpl;
    auto using traces_refl, start_traces, toggle_user_traces,
      user_task_response_traces, send_photo_traces, moderation_traces,
      slyot_traces;
    by apply traces_same.
Qed.

Lemma run_traces qs w : traces w (run qs w).
Proof.
  revert w. induction qs as [|q qs IH]; intros w; simpl.
  - apply traces_refl.
  - eapply traces_trans; [apply handle_traces|apply IH].
Qed.

(** ** The fan-out of a broadcast *)

Lemma active_users_spec d u :
  u ∈ handlers_admin.active_users d ↔
  ∃ user, users d !! u = Some user ∧ is_active user = true.
Proof.
  unfold handlers_admin.active_users. rewrite list_elem_of_fmap. split.
  - intros ([v user] & -> & Hin). apply list_elem_of_filter in Hin as [Hact Hin].
    apply elem_of_map_to_list in Hin. eauto.
  - intros (user & Hu & Hact). exists (u, user). split; [done|].
    apply list_elem_of_filter. split; [done|]. by apply elem_of_map_to_list.
Qed.

Lemma active_users_NoDup d : NoDup (handlers_admin.active_users d).
Proof.
  unfold handlers_admin.active_users.
  pose proof (NoDup_fst_map_to_list (users d)) as Hnd.
  induction (map_to_list (users d)) as [|[k v] l IH]; simpl in *.
  { constructor. }
  inversion Hnd as [|? ? Hnotin Hnd']; subst.
  rewrite filter_cons. case_decide; simpl; [|by apply IH].
  constructor; [|by apply IH].
  intros Hin. apply Hnotin. apply list_elem_of_fmap in Hin as ([k' v'] & -> & Hin).
  apply list_elem_of_filter in Hin as [_ Hin].
  apply list_elem_of_fmap. by exists (k', v').
Qed.

Lemma send_to_user_keeps_users e task acc u v :
  is_Some (users (handlers_admin.session acc) !! v) →
  is_Some (users (handlers_admin.session
                    (handlers_admin.send_to_user e task acc u)) !! v).
Proof.
  intros [x Hx]. unfold handlers_admin.send_to_user.
  destruct (send_photo e u) as [m|[]]; simpl; eauto;
    rewrite lookup_alter; case_decide; simplify_eq; rewrite Hx; simpl; eauto.
Qed.

Lemma send_to_user_consistent e task acc u :
  is_Some (users (handlers_admin.session acc) !! u) →
  consistent (handlers_admin.session acc) →
  consistent (handlers_admin.session
                (handlers_admin.send_to_user e task acc u)).
Proof.
  intros Hu Hc. unfold handlers_admin.send_to_user.
  destruct (send_photo e u) as [m|[]]; simpl; auto using consistent_deactivate.
  apply consistent_new_response; auto using next_id_fresh.
Qed.

Lemma fanout_consistent e task recipients :
  ∀ acc,
    (∀ u, u ∈ recipients → is_Some (users (handlers_admin.session acc) !! u)) →
    consistent (handlers_admin.session acc) →
    consistent (handlers_admin.session
                  (foldl (handlers_admin.send_to_user e task) acc recipients)).
Proof.
  induction recipients as [|u recipients IH]; intros acc Hin Hc; simpl; [done|].
  apply IH.
  - intros v Hv. apply send_to_user_keeps_users, Hin. set_solver.
  - apply send_to_user_consistent; [|done]. apply Hin. set_solver.
Qed.

(** ** What one commit preserves *)

Lemma step_consistent d d' : step d d' → consistent d → consistent d'.
Proof.
  destruct 1 as [u Hu|u user b Hu|i r Hr Hst
                 |i r user s f Hr Hu Hmod|e admin_id photo]; intros Hc.
  - by apply consistent_new_user.
  - by eapply consistent_update_user.
  - eapply consistent_insert_response; eauto; by rewrite Hst.
  - eapply consistent_transition; eauto;
      inversion Hmod; subst; simpl; lia.
  - apply fanout_consistent.
    + intros u Hu. simpl in *. apply active_users_spec in Hu as (user & Hu & _).
      eauto.
    + simpl. by apply consistent_new_task.
Qed.

Lemma commits_consistent d l d' :
  commits d l d' → consistent d → consistent d' ∧ Forall consistent l.
Proof.
  induction 1 as [|d d1 l d' Hstep _ IH]; intros Hc; [by split|].
  destruct IH as [? ?]; [by eapply step_consistent|].
  split; [done|]. constructor; [by eapply step_consistent|done].
Qed.

Lemma initial_consistent admin_ids :
  consistent (mkDb ∅ admin_ids ∅ ∅).
Proof. split; intros ? ?; simpl; by rewrite lookup_empty. Qed.

(** C2.  After any sequence of requests to a fresh deployment, and in every
    state a commit has produced on the way, each user's [success_count] is
    the number of that user's responses in [confirmed] and each user's
    [fail_count] the number in [rejected] or [slyot]. *)
Theorem counters_match_responses
    (admin_ids : gset Z) (rc : option redis.redis_server) (ttl : Z)
    (qs : list request) :
  let w := run qs (initial_world admin_ids rc ttl) in
  counters_consistent (store w) ∧ Forall counters_consistent (history w).
Proof.
  intros w. destruct (run_traces qs (initial_world admin_ids rc ttl))
    as (l & Hh & Hc). fold w in Hh, Hc. simpl in *.
  apply commits_consistent in Hc as [[_ Hs] Hl];
    [|apply initial_consistent].
  split; [done|]. rewrite Hh. eapply Forall_impl; [exact Hl|].
  by intros d [_ ?].
Qed.

(** ** The status of a response moves along the edges *)

Lemma send_to_user_old_row e task acc u i r :
  responses (handlers_admin.session acc) !! i = Some r →
  responses (handlers_admin.session
               (handlers_admin.send_to_user e task acc u)) !! i = Some r.
Proof.
  intros Hi. unfold handlers_admin.send_to_user.
  destruct (send_photo e u) as [m|[]]; simpl; try done.
  rewrite lookup_insert_ne; [done|]. intros Heq.
  pose proof (next_id_fresh (responses (handlers_admin.session acc))).
  congruence.
Qed.

Lemma fanout_old_row e task recipients :
  ∀ acc i r,
    responses (handlers_admin.session acc) !! i = Some r →
    responses (handlers_admin.session
                 (foldl (handlers_admin.send_to_user e task) acc recipients))
      !! i = Some r.
Proof.
  induction recipients as [|u recipients IH]; intros acc i r Hi; simpl;
    [done|].
  by apply IH, send_to_user_old_row.
Qed.

Lemma send_to_user_new_row e task acc u i r' :
  responses (handlers_admin.session acc) !! i = None →
  responses (handlers_admin.session
               (handlers_admin.send_to_user e task acc u)) !! i = Some r' →
  ∃ m, send_photo e u = inl m ∧
       r' = mkResponse u task "pending_user" None (Some m).
Proof.
  intros Hi. unfold handlers_admin.send_to_user.
  destruct (send_photo e u) as [m|[]]; simpl; try congruence.
  rewrite lookup_insert. case_decide; intros ?; simplify_eq. eauto.
Qed.

Lemma fanout_new_row e task recipients :
  ∀ acc i r',
    responses (handlers_admin.session acc) !! i = None →
    responses (handlers_admin.session
                 (foldl (handlers_admin.send_to_user e task) acc recipients))
      !! i = Some r' →
    ∃ u m, u ∈ recipients ∧ send_photo e u = inl m ∧
           r' = mkResponse u task "pending_user" None (Some m).
Proof.
  induction recipients as [|u recipients IH]; intros acc i r' Hi Hi'; simpl in *;
    [congruence|].
  destruct (responses (handlers_admin.session
                         (handlers_admin.send_to_user e task acc u)) !! i)
    as [r1|] eqn:H1.
  - rewrite (fanout_old_row _ _ _ _ _ _ H1) in Hi'. simplify_eq.
    destruct (send_to_user_new_row _ _ _ _ _ _ Hi H1) as (m & ? & ?).
    exists u, m. split; [set_solver|done].
  - destruct (IH _ _ _ H1 Hi') as (v & m & ? & ? & ?).
    exists v, m. split; [set_solver|done].
Qed.

Lemma status_moves_same_rows E d d' :
  responses d' = responses d → status_moves E d d'.
Proof.
  intros Heq. split.
  - intros i r Hi. exists r. rewrite Heq. auto.
  - intros i r' Hn Hs. rewrite Heq in Hs. congruence.
Qed.

Lemma status_moves_update E d i r r' :
  responses d !! i = Some r →
  status r' = status r ∨ E (status r) (status r') →
  status_moves E d (set_responses (insert i r') d).
Proof.
  intros Hi Hmove. split; simpl.
  - intros j rj Hj. rewrite lookup_insert. case_decide; simplify_eq; eauto.
  - intros j rj Hn. rewrite lookup_insert. case_decide; simplify_eq.
    congruence.
Qed.

Lemma moderation_edge s s' f : moderation s s' f → table_edge s s'.
Proof. destruct 1; constructor. Qed.

Lemma step_status_moves d d' : step d d' → status_moves table_edge d d'.
Proof.
  destruct 1 as [u Hu|u user b Hu|i r Hr Hst
                 |i r user s f Hr Hu Hmod|e admin_id photo].
  - by apply status_moves_same_rows.
  - by apply status_moves_same_rows.
  - eapply status_moves_update; [done|]. right. simpl. rewrite Hst.
    apply edge_report.
  - split; simpl.
    + intros j rj Hj. rewrite lookup_insert. case_decide; simplify_eq; eauto.
      eexists. split; [done|]. right.
      by eapply moderation_edge.
    + intros j rj Hn. rewrite lookup_insert. case_decide; simplify_eq.
      congruence.
  - split.
    + intros i r Hi. exists r. split; [|by left]. by apply fanout_old_row.
    + intros i r' Hn Hs.
      apply fanout_new_row in Hs as (u & m & _ & _ & ->); done.
Qed.

Lemma commits_follow d l d' :
  commits d l d' → follows (status_moves table_edge) d l.
Proof.
  induction 1; simpl; [done|]. split; [by apply step_status_moves|done].
Qed.

Lemma table_edge_valid s s' : table_edge s s' → valid_status s'.
Proof. unfold valid_status. destruct 1; set_solver. Qed.

Lemma status_moves_valid d d' :
  status_moves table_edge d d' → valid_rows d → valid_rows d'.
Proof.
  intros [Hold Hnew] Hv i r' Hi'.
  destruct (responses d !! i) as [r|] eqn:Hi.
  - destruct (Hold i r Hi) as (r1 & H1 & Hmove). simplify_eq.
    destruct Hmove as [->|Hedge]; [by eapply Hv|by eapply table_edge_valid].
  - rewrite (Hnew i r' Hi Hi'). unfold valid_status. set_solver.
Qed.

Lemma follows_valid d l :
  follows (status_moves table_edge) d l → valid_rows d → Forall valid_rows l.
Proof.
  revert d. induction l as [|d' l IH]; intros d; simpl; [done|].
  intros [Hm Hf] Hv. pose proof (status_moves_valid _ _ Hm Hv).
  constructor; eauto.
Qed.

(** C3.  In the history of commits of any run from a fresh deployment,
    every response keeps its status or moves along an edge of the transition
    table (there is no way back from [success_pending_admin] to
    [pending_user]: the line that would take it comes after the [NameError]
    of [select(Admin)]); a new response starts in [pending_user]; no
    response disappears; and every status is one of the five values. *)
Theorem status_follows_table_edges
    (admin_ids : gset Z) (rc : option redis.redis_server) (ttl : Z)
    (qs : list request) :
  let w0 := initial_world admin_ids rc ttl in
  follows (status_moves table_edge) (store w0) (history (run qs w0))
  ∧ Forall (λ d, ∀ i r, responses d !! i = Some r → valid_status (status r))
           (history (run qs w0)).
Proof.
  intros w0. destruct (run_traces qs w0) as (l & Hh & Hc).
  rewrite Hh. simpl. apply commits_follow in Hc. split; [done|].
  eapply follows_valid; [done|]. intros i r. simpl. by rewrite lookup_empty.
Qed.

(** The report of the scenario, with no admin within reach of the bot: the
    status stays [success_pending_admin]. *)
Example report_without_admin_history :
  history (run report_without_admin fresh_world)
  = [ mkDb {[1 := mkUser true 0 0]} {[100]} ∅ ∅ ;
      db_with {[1 := row "pending_user"]} ;
      db_with {[1 := row "success_pending_admin"]} ].
Proof. vm_compute. reflexivity. Qed.

(** ** Notifications after the status write *)

Lemma first_commit_none w w' :
  history w' = history w → first_commit w w' = None.
Proof. intros Hh. unfold first_commit. by rewrite Hh, drop_all. Qed.

Lemma first_commit_app w w' d l :
  history w' = history w ++ d :: l → first_commit w w' = Some d.
Proof. intros Hh. unfold first_commit. by rewrite Hh, drop_app_length. Qed.

Lemma one_commit_keeps w w' : at_most_one_commit w w' → keeps_status_write w w'.
Proof.
  intros [[Hh _]|Hh] d i r r' Hfirst.
  - by rewrite (first_commit_none _ _ Hh) in Hfirst.
  - rewrite (first_commit_app _ _ _ _ Hh) in Hfirst. simplify_eq. eauto.
Qed.

Ltac one_commit :=
  unfold at_most_one_commit, commit; repeat case_match; simplify_eq; simpl;
  solve [by left | by right].

Lemma moderation_one_commit e admin_id action response_id w :
  at_most_one_commit w
    (handlers_admin.handle_admin_moderation e admin_id action response_id w).2.
Proof. unfold handlers_admin.handle_admin_moderation. one_commit. Qed.

Lemma slyot_one_commit e admin_id action response_id w :
  at_most_one_commit w
    (handlers_admin.handle_admin_slyot_action e admin_id action response_id
       w).2.
Proof. unfold handlers_admin.handle_admin_slyot_action. one_commit. Qed.

Lemma send_photo_one_commit e admin_id photo_file_id w :
  at_most_one_commit w
    (handlers_admin.send_photo_execute e admin_id photo_file_id w).2.
Proof. unfold handlers_admin.send_photo_execute. one_commit. Qed.

Lemma toggle_user_one_commit e user_id b w :
  at_most_one_commit w
    (handlers_user.toggle_user_bot_status e user_id b w).2.
Proof. unfold handlers_user.toggle_user_bot_status. one_commit. Qed.

Lemma start_one_commit e user_id w :
  at_most_one_commit w (handlers_common.start e user_id w).2.
Proof. unfold handlers_common.start. one_commit. Qed.

Lemma user_task_response_one_commit e user_id action task w :
  at_most_one_commit w
    (handlers_user.handle_user_task_response e user_id action task w).2.
Proof.
  destruct (user_task_response_cases e user_id action task w)
    as [->|(i & r & _ & _ & Hc)]; [by left|].
  right. unfold commit in Hc. destruct (commit_ok e); [|done].
  by injection Hc as <-.
Qed.

(** C4.  Whatever the Telegram calls of a run answer (and whatever is
    raised after the commit), the status the run's commit writes is the
    status the run leaves: every handler sends its notifications after its
    one commit and writes nothing afterwards. *)
Theorem status_write_survives_notifications (q : request) (w : world) :
  keeps_status_write w (handle q w).
Proof.
  apply one_commit_keeps.
  destruct q as [e u|e u b|e u action task|e a photo|e a action i
                 |e a action i|a|up]; simpl;
    unfold utils.admin_required; try case_bool_decide; simpl;
    auto using start_one_commit, toggle_user_one_commit,
      user_task_response_one_commit, send_photo_one_commit,
      moderation_one_commit, slyot_one_commit;
    by left.
Qed.

(** The user's report when no message reaches anybody: the commit of
    [success_pending_admin] stays. *)
Example report_survives_failed_notifications :
  handlers_user.handle_user_task_response (undeliverable 2) 1
    constants.CB_USER_TASK_SUCCESS 1 before_report
  = (handlers_user.InternalError,
     mkWorld (db_with {[1 := row "success_pending_admin"]})
             (history before_report
              ++ [db_with {[1 := row "success_pending_admin"]}])
             (redis_client before_report) ∅ 300).
Proof. vm_compute. reflexivity. Qed.
(** ** The cancel timer *)

Lemma check_timer_true now response_id rc :
  utils.check_slyot_cancel_timer now response_id rc = true ↔
  ∃ r t, rc = Some r ∧ redis.reachable r = true
         ∧ redis.expiry r !! utils.timer_key response_id = Some t
         ∧ now < t.
Proof.
  unfold utils.check_slyot_cancel_timer, utils.get_redis_client,
    redis.exists_.
  split.
  - destruct rc as [r|]; [|done].
    destruct (redis.reachable r) eqn:Hr; [|done].
    destruct (redis.expiry r !! utils.timer_key response_id) as [t|] eqn:Ht;
      [|done].
    intros Hlt%Z.ltb_lt. by exists r, t.
  - intros (r & t & -> & -> & -> & Hlt). by apply Z.ltb_lt.
Qed.

Lemma check_timer_false now response_id rc :
  utils.check_slyot_cancel_timer now response_id rc = false ↔
  timer_unreachable rc = true
  ∨ ∃ r, rc = Some r
         ∧ (redis.expiry r !! utils.timer_key response_id = None
            ∨ ∃ t, redis.expiry r !! utils.timer_key response_id = Some t
                   ∧ t ≤ now).
Proof.
  unfold utils.check_slyot_cancel_timer, utils.get_redis_client,
    redis.exists_, timer_unreachable.
  destruct rc as [r|]; [|by split; [left|]].
  destruct (redis.reachable r) eqn:Hr; simpl; [|by split; [left|]].
  destruct (redis.expiry r !! utils.timer_key response_id) as [t|] eqn:Ht.
  - rewrite Z.ltb_ge. split.
    + intros ?. right. exists r. split; [done|]. right. eauto.
    + intros [?|(r' & ? & [?|(t' & ? & ?)])]; simplify_eq. done.
  - split; [|done]. intros _. right. exists r. auto.
Qed.

Lemma key_absent_check response_id rc now :
  key_absent response_id rc →
  utils.check_slyot_cancel_timer now response_id rc = false.
Proof.
  intros Habs. apply check_timer_false. destruct rc as [r|]; [|by left].
  right. exists r. auto.
Qed.

Lemma clear_timer_absent now response_id rc :
  utils.check_slyot_cancel_timer now response_id rc = true →
  key_absent response_id (utils.clear_slyot_cancel_timer response_id rc).
Proof.
  intros (r & t & -> & Hr & _ & _)%check_timer_true.
  unfold key_absent, utils.clear_slyot_cancel_timer, utils.get_redis_client,
    redis.delete_. simpl. rewrite Hr. simpl. apply lookup_delete_eq.
Qed.

Lemma set_timer_window t0 ttl response_id rc rc' :
  utils.set_slyot_cancel_timer t0 ttl response_id rc = (true, rc') →
  ∀ now, utils.check_slyot_cancel_timer now response_id rc'
         = bool_decide (now < t0 + ttl).
Proof.
  unfold utils.set_slyot_cancel_timer, utils.get_redis_client, redis.setex.
  destruct rc as [r|]; [|done].
  destruct (redis.reachable r) eqn:Hr; simpl; [|done].
  destruct (0 <? ttl); [|done]. intros ? now. simplify_eq.
  unfold utils.check_slyot_cancel_timer, utils.get_redis_client,
    redis.exists_. simpl. rewrite lookup_insert_eq.
  case_bool_decide; lia.
Qed.

Lemma set_timer_unreachable t0 ttl response_id rc :
  timer_unreachable rc = true →
  utils.set_slyot_cancel_timer t0 ttl response_id rc = (false, rc).
Proof.
  unfold utils.set_slyot_cancel_timer, utils.get_redis_client, redis.setex,
    timer_unreachable.
  destruct rc as [r|]; [|done]. by destruct (redis.reachable r).
Qed.

Lemma unreachable_check rc now response_id :
  timer_unreachable rc = true →
  utils.check_slyot_cancel_timer now response_id rc = false.
Proof. intros. apply check_timer_false. by left. Qed.

(** ** The timer keys and the runs of requests *)

Lemma timer_key_inj i j : utils.timer_key i = utils.timer_key j → i = j.
Proof.
  unfold utils.timer_key, constants.REDIS_SLYOT_CANCEL_KEY_PREFIX. simpl.
  intros Heq. simplify_eq. by apply (inj pretty).
Qed.

Lemma run_consistent qs w : consistent (store w) → consistent (store (run qs w)).
Proof.
  intros Hc. destruct (run_traces qs w) as (l & _ & Hcommits).
  by apply commits_consistent in Hcommits as [? _].
Qed.

(** ** The global flag *)

(** C7.  The flag is true when [bot_data] has no entry for it.  When the
    flag is false, [send_photo_execute] leaves the world exactly as it was
    (no Task row, no Response row, nothing else), reports no task
    identifier, and, given a photo, answers that the bot is stopped. *)
Theorem paused_broadcast_writes_nothing
    (e : env) (admin_id : Z) (photo_file_id : option string) (w : world) :
  (bot_data w !! config.BOT_ACTIVE_STATE_KEY = None →
   utils.is_bot_globally_active w = true)
  ∧ (utils.is_bot_globally_active w = false →
     let result :=
       handlers_admin.send_photo_execute e admin_id photo_file_id w in
     result.2 = w
     ∧ tasks (store result.2) = tasks (store w)
     ∧ responses (store result.2) = responses (store w)
     ∧ handlers_admin.new_task_id result.1 = None
     ∧ (∀ photo, photo_file_id = Some photo → photo ≠ "" →
        handlers_admin.send_outcome result.1 = handlers_admin.BotPaused)).
Proof.
  split.
  - intros Hnone. unfold utils.is_bot_globally_active. by rewrite Hnone.
  - intros Hoff. unfold handlers_admin.send_photo_execute. rewrite Hoff.
    destruct photo_file_id as [[|c photo]|]; simpl;
      repeat split; try done; by intros ? [= <-].
Qed.

Lemma paused_broadcast_writes_nothing_witness :
  (handlers_admin.send_photo_execute (delivering 1) 100 (Some "photo")
     paused_world).2 = paused_world.
Proof.
  refine (proj1 (proj2 (paused_broadcast_writes_nothing (delivering 1) 100
                          (Some "photo") paused_world) _)).
  vm_compute. reflexivity.
Defined.

(** ** The accounting of a broadcast *)

Lemma fanout_counts e task recipients :
  ∀ acc,
    let acc' := foldl (handlers_admin.send_to_user e task) acc recipients in
    handlers_admin.sent acc'
    = handlers_admin.sent acc
      + Z.of_nat (length (filter (λ u, delivered e u = true) recipients))
    ∧ handlers_admin.failed acc'
      = handlers_admin.failed acc
        + Z.of_nat (length (filter (λ u, delivered e u = false) recipients)).
Proof.
  induction recipients as [|u recipients IH]; intros acc; simpl; [lia|].
  destruct (IH (handlers_admin.send_to_user e task acc u)) as [-> ->].
  rewrite !filter_cons. unfold handlers_admin.send_to_user, delivered.
  destruct (send_photo e u) as [m|[]]; simpl;
    repeat case_decide; simpl; try done; lia.
Qed.

Lemma fanout_tasks e task recipients :
  ∀ acc,
    tasks (handlers_admin.session
             (foldl (handlers_admin.send_to_user e task) acc recipients))
    = tasks (handlers_admin.session acc).
Proof.
  induction recipients as [|u recipients IH]; intros acc; simpl; [done|].
  rewrite IH. unfold handlers_admin.send_to_user.
  by destruct (send_photo e u) as [m|[]].
Qed.

Lemma send_to_user_users e task acc u v :
  users (handlers_admin.session (handlers_admin.send_to_user e task acc u)) !! v
  = if bool_decide (v = u) && permanent_failure e u
    then with_is_active false <$> users (handlers_admin.session acc) !! v
    else users (handlers_admin.session acc) !! v.
Proof.
  unfold handlers_admin.send_to_user, permanent_failure.
  destruct (send_photo e u) as [m|[]]; simpl;
    rewrite ?andb_false_r, ?andb_true_r; try done;
    rewrite lookup_alter; case_bool_decide; case_decide; by simplify_eq.
Qed.

Lemma fanout_users e task recipients :
  ∀ acc v,
    users (handlers_admin.session
             (foldl (handlers_admin.send_to_user e task) acc recipients)) !! v
    = if bool_decide (v ∈ recipients) && permanent_failure e v
      then with_is_active false <$> users (handlers_admin.session acc) !! v
      else users (handlers_admin.session acc) !! v.
Proof.
  induction recipients as [|u recipients IH]; intros acc v; cbn [foldl].
  { by rewrite bool_decide_eq_false_2 by set_solver. }
  rewrite IH, send_to_user_users.
  destruct (decide (v = u)) as [->|Hne].
  - rewrite (bool_decide_eq_true_2 (u = u)) by done.
    rewrite (bool_decide_eq_true_2 (u ∈ u :: recipients)) by set_solver.
    simpl. destruct (permanent_failure e u); rewrite ?andb_false_r; [|done].
    rewrite andb_true_r. case_bool_decide; [|done].
    by destruct (users (handlers_admin.session acc) !! u).
  - rewrite (bool_decide_eq_false_2 (v = u)) by done. simpl.
    assert (bool_decide (v ∈ u :: recipients) = bool_decide (v ∈ recipients))
      as -> by (apply bool_decide_ext; rewrite elem_of_cons;
                intuition congruence).
    done.
Qed.

Lemma send_to_user_count P e task acc u v :
  count_responses P v
    (responses (handlers_admin.session
                  (handlers_admin.send_to_user e task acc u)))
  = count_responses P v (responses (handlers_admin.session acc))
    + ind (bool_decide (u = v) && delivered e u && P "pending_user").
Proof.
  unfold handlers_admin.send_to_user, delivered.
  destruct (send_photo e u) as [m|[]]; simpl;
    rewrite ?andb_false_r; simpl; try lia.
  rewrite count_insert, next_id_fresh. unfold hit. simpl.
  rewrite andb_true_r. lia.
Qed.

Lemma fanout_count P e task recipients :
  NoDup recipients →
  ∀ acc v,
    count_responses P v
      (responses (handlers_admin.session
                    (foldl (handlers_admin.send_to_user e task) acc
                       recipients)))
    = count_responses P v (responses (handlers_admin.session acc))
      + ind (bool_decide (v ∈ recipients) && delivered e v
             && P "pending_user").
Proof.
  induction 1 as [|u recipients Hnotin Hnd IH]; intros acc v; cbn [foldl].
  { rewrite bool_decide_eq_false_2 by set_solver. simpl. lia. }
  rewrite IH, send_to_user_count.
  destruct (decide (u = v)) as [->|Hne].
  - rewrite (bool_decide_eq_true_2 (v = v)) by done.
    rewrite (bool_decide_eq_true_2 (v ∈ v :: recipients)) by set_solver.
    rewrite (bool_decide_eq_false_2 (v ∈ recipients)) by done. simpl. lia.
  - rewrite (bool_decide_eq_false_2 (u = v)) by done.
    assert (bool_decide (v ∈ u :: recipients) = bool_decide (v ∈ recipients))
      as -> by (apply bool_decide_ext; rewrite elem_of_cons;
                intuition congruence).
    simpl. lia.
Qed.

Lemma broadcast_runs e admin_id photo w :
  photo ≠ "" →
  utils.is_bot_globally_active w = true →
  reply_text e = None →
  commit_ok e = true →
  let task := next_id (tasks (store w)) in
  let flushed := set_tasks (insert task (mkTask admin_id photo)) (store w) in
  let acc :=
    foldl (handlers_admin.send_to_user e task)
          (handlers_admin.mkFanout flushed 0 0)
          (handlers_admin.active_users (store w)) in
  handlers_admin.send_photo_execute e admin_id (Some photo) w
  = (handlers_admin.mkSendResult
       (match handlers_admin.active_users (store w) with
        | [] => handlers_admin.NoActiveUsers
        | _ => handlers_admin.TaskSent
        end)
       (Some task) (handlers_admin.sent acc) (handlers_admin.failed acc),
     mkWorld (handlers_admin.session acc)
             (history w ++ [handlers_admin.session acc])
             (redis_client w) (bot_data w) (SLYOT_CANCEL_TIMEOUT_SECONDS w)).
Proof.
  intros Hphoto Hon Hreply Hok. simpl.
  unfold handlers_admin.send_photo_execute, commit.
  destruct photo as [|c photo]; [done|]. rewrite Hon, Hreply, Hok. simpl.
  change (handlers_admin.active_users (set_tasks _ (store w)))
    with (handlers_admin.active_users (store w)).
  by destruct (handlers_admin.active_users (store w)).
Qed.

(** C6.  A broadcast with a photo, the bot active, the progress message to
    the admin delivered and the commit going through.  The Task row is
    created under a fresh identifier; [sent_count] and [failed_count] are
    the numbers of recipients the photo reached and did not reach; no
    existing Response changes; every new Response belongs to a recipient the
    photo reached, is for this task and is in [pending_user]; each recipient
    gets exactly one new Response when the photo arrived and none
    otherwise; a recipient whose send failed with BadRequest or Forbidden
    ends with [is_active = false], every other user keeps [is_active], all
    users keep their counters, and no user row appears or disappears. *)
Theorem broadcast_accounting
    (e : env) (admin_id : Z) (photo : string) (w : world) :
  photo ≠ "" →
  utils.is_bot_globally_active w = true →
  reply_text e = None →
  commit_ok e = true →
  let recipients := handlers_admin.active_users (store w) in
  let task := next_id (tasks (store w)) in
  let result := handlers_admin.send_photo_execute e admin_id (Some photo) w in
  let after := store result.2 in
  (handlers_admin.new_task_id result.1 = Some task
   ∧ tasks (store w) !! task = None
   ∧ tasks after = <[task := mkTask admin_id photo]> (tasks (store w)))
  ∧ (handlers_admin.sent_count result.1
     = Z.of_nat (length (filter (λ u, delivered e u = true) recipients))
     ∧ handlers_admin.failed_count result.1
       = Z.of_nat (length (filter (λ u, delivered e u = false) recipients)))
  ∧ (∀ i r, responses (store w) !! i = Some r → responses after !! i = Some r)
  ∧ (∀ i r, responses (store w) !! i = None → responses after !! i = Some r →
       ∃ u m, u ∈ recipients ∧ send_photo e u = inl m
              ∧ r = mkResponse u task "pending_user" None (Some m))
  ∧ (∀ u, count_responses any_status u (responses after)
          = count_responses any_status u (responses (store w))
            + ind (bool_decide (u ∈ recipients) && delivered e u))
  ∧ (∀ u user, users (store w) !! u = Some user →
       ∃ user', users after !! u = Some user'
                ∧ is_active user'
                  = (if bool_decide (u ∈ recipients) && permanent_failure e u
                     then false else is_active user)
                ∧ success_count user' = success_count user
                ∧ fail_count user' = fail_count user)
  ∧ (∀ u, users (store w) !! u = None → users after !! u = None).
Proof.
  intros Hphoto Hon Hreply Hok recipients task result after.
  subst after result.
  rewrite (broadcast_runs _ _ _ _ Hphoto Hon Hreply Hok). simpl.
  fold task recipients.
  set (flushed := set_tasks _ (store w)).
  pose proof (fanout_counts e task recipients
                (handlers_admin.mkFanout flushed 0 0)) as [Hsent Hfailed].
  simpl in Hsent, Hfailed.
  split; [|split; [|split; [|split; [|split; [|split]]]]].
  - split; [done|]. split; [apply next_id_fresh|]. by rewrite fanout_tasks.
  - split; [rewrite Hsent|rewrite Hfailed]; lia.
  - intros i r Hi. by apply fanout_old_row.
  - intros i r Hi Hi'. by apply fanout_new_row in Hi'.
  - intros u. rewrite fanout_count by apply active_users_NoDup.
    unfold any_status. by rewrite andb_true_r.
  - intros u user Hu. rewrite fanout_users. simpl. rewrite Hu.
    destruct (_ && _); simpl; by eexists.
  - intros u Hu. rewrite fanout_users. simpl. rewrite Hu.
    by destruct (_ && _).
Qed.

(** The example of the specification: three recipients, one of them
    unreachable for good. *)
Lemma broadcast_accounting_witness :
  let result :=
    handlers_admin.send_photo_execute blocked_2 100 (Some "photo")
      three_users in
  (handlers_admin.sent_count result.1 = 2
   ∧ handlers_admin.failed_count result.1 = 1)
  ∧ (∃ user, users (store result.2) !! 2 = Some user
             ∧ is_active user = false)
  ∧ (∃ user, users (store result.2) !! 3 = Some user
             ∧ is_active user = true).
Proof.
  pose proof (broadcast_accounting blocked_2 100 "photo" three_users)
    as Hbroadcast.
  destruct Hbroadcast as (_ & Hcounts & _ & _ & _ & Husers & _);
    [done..|].
  split; [exact Hcounts|]. split.
  - destruct (Husers 2 (mkUser true 0 0)) as (user & Hu & Hactive & _);
      [reflexivity|].
    exists user. split; [exact Hu|]. rewrite Hactive. reflexivity.
  - destruct (Husers 3 (mkUser true 0 0)) as (user & Hu & Hactive & _);
      [reflexivity|].
    exists user. split; [exact Hu|]. rewrite Hactive. reflexivity.
Defined.

Example three_recipients_one_blocked :
  let result :=
    handlers_admin.send_photo_execute blocked_2 100 (Some "photo")
      three_users in
  handlers_admin.send_outcome result.1 = handlers_admin.TaskSent
  ∧ handlers_admin.sent_count result.1 = 2
  ∧ handlers_admin.failed_count result.1 = 1
  ∧ size (responses (store result.2)) = 2%nat
  ∧ is_active <$> users (store result.2) !! 1 = Some true
  ∧ is_active <$> users (store result.2) !! 2 = Some false
  ∧ is_active <$> users (store result.2) !! 3 = Some true
  ∧ size (tasks (store result.2)) = 1%nat.
Proof. vm_compute. repeat split. Qed.

(** * More of the code: proofs

    ** Decoding the callback data *)

Example split_confirm_button :
  python.split "_"%char 2 "admin_mod_confirm_7" = ["admin"; "mod"; "confirm_7"].
Proof. reflexivity. Qed.

Example split_short : python.split "_"%char 2 "admin_mod" = ["admin"; "mod"].
Proof. reflexivity. Qed.

Lemma count_char_app c s1 s2 :
  count_char c (s1 +:+ s2) = (count_char c s1 + count_char c s2)%nat.
Proof. induction s1 as [|c' s1 IH]; simpl; [done|]. rewrite IH. lia. Qed.

Lemma split_once_before sep s :
  count_char sep (python.split_once sep s).1 = 0%nat.
Proof.
  induction s as [|c s IH]; simpl; [done|].
  destruct (Ascii.eqb c sep) eqn:Hc; [done|].
  destruct (python.split_once sep s) as [before after]. simpl in *.
  by rewrite Hc, IH.
Qed.

(** The action an admin handler decodes has exactly two underscores. *)
Lemma decode_admin_action int_ callback_data action response_id :
  callbacks.decode_admin int_ callback_data = Some (action, response_id) →
  count_char "_"%char action = 2%nat.
Proof.
  unfold callbacks.decode_admin. simpl.
  pose proof (split_once_before "_"%char callback_data) as H1.
  destruct (python.split_once "_"%char callback_data) as [prefix [rest|]];
    [|done].
  pose proof (split_once_before "_"%char rest) as H2.
  destruct (python.split_once "_"%char rest) as [act [last|]]; [|done].
  destruct (int_ last); [|done]. intros ?. simplify_eq. simpl in *.
  rewrite !count_char_app, H1, H2. done.
Qed.

(** The action the user handler decodes has exactly one underscore. *)
Lemma decode_user_action int_ callback_data action task :
  callbacks.decode_user int_ callback_data = Some (action, task) →
  count_char "_"%char action = 1%nat.
Proof.
  unfold callbacks.decode_user. simpl.
  destruct (python.split_once "_"%char callback_data) as [prefix [rest|]];
    [|done].
  pose proof (split_once_before "_"%char rest) as H2.
  destruct (python.split_once "_"%char rest) as [act [last|]]; [|done].
  simpl. destruct (int_ last); [|done]. intros ?. simplify_eq.
  simpl in H2. rewrite count_char_app, H2. done.
Qed.

Lemma count_differs_neq (a b : string) :
  count_char "_"%char a ≠ count_char "_"%char b → (a =? b)%string = false.
Proof. intros Hne. apply String.eqb_neq. by intros ->. Qed.

(** X1.  Whatever the callback data and whatever [int] makes of its last
    part, [handle_admin_moderation] leaves the world as it was: the action it
    rebuilds has two underscores, the constants it compares it with have
    three.  For the two buttons of the moderation keyboard the text given to
    [int] is "confirm_<id>" or "reject_<id>", and the action is
    "admin_mod_". *)
Theorem moderation_callback_never_writes
    (int_ : string → option Z) (e : env) (admin_id : Z) (w : world) :
  (∀ callback_data,
     (callbacks.handle_admin_moderation int_ e admin_id callback_data w).2 = w)
  ∧ (∀ response_id,
       (callbacks.decode_admin int_) <$>
         keyboards.get_admin_moderation_keyboard response_id
       = [ (λ n, ("admin_mod_", n)) <$> int_ ("confirm_" +:+ pretty response_id);
           (λ n, ("admin_mod_", n)) <$> int_ ("reject_" +:+ pretty response_id) ]).
Proof.
  split.
  - intros callback_data. unfold callbacks.handle_admin_moderation.
    unfold utils.admin_required. case_bool_decide; [|done].
    destruct (callbacks.decode_admin int_ callback_data)
      as [[action response_id]|] eqn:Hdec; [|done].
    apply decode_admin_action in Hdec.
    unfold handlers_admin.handle_admin_moderation.
    rewrite !count_differs_neq by (rewrite Hdec; simpl; lia).
    repeat case_match; by simplify_eq.
  - intros response_id. unfold callbacks.decode_admin. simpl.
    by do 2 destruct (int_ _).
Qed.

(** X2.  The same for [handle_admin_slyot_action]: no callback data makes it
    mark or cancel a slyot, set or clear a timer; for the button of the slyot
    keyboard the text given to [int] is "mark_<id>" or "cancel_<id>". *)
Theorem slyot_callback_never_writes
    (int_ : string → option Z) (e : env) (admin_id : Z) (w : world) :
  (∀ callback_data,
     (callbacks.handle_admin_slyot_action int_ e admin_id callback_data w).2
     = w)
  ∧ (∀ response_id can_cancel,
       (callbacks.decode_admin int_) <$>
         keyboards.get_admin_slyot_keyboard response_id can_cancel
       = [ (λ n, ("admin_slyot_", n)) <$>
             int_ ((if can_cancel then "cancel_" else "mark_")
                   +:+ pretty response_id) ]).
Proof.
  split.
  - intros callback_data. unfold callbacks.handle_admin_slyot_action.
    unfold utils.admin_required. case_bool_decide; [|done].
    destruct (callbacks.decode_admin int_ callback_data)
      as [[action response_id]|] eqn:Hdec; [|done].
    apply decode_admin_action in Hdec.
    unfold handlers_admin.handle_admin_slyot_action.
    rewrite !count_differs_neq by (rewrite Hdec; simpl; lia).
    repeat case_match; by simplify_eq.
  - intros response_id can_cancel. unfold callbacks.decode_admin.
    destruct can_cancel; simpl; by destruct (int_ _).
Qed.

(** X3.  The same for [handle_user_task_response]: the action it rebuilds is
    "user_" and a part without underscore, never "user_task_success"; for the
    button of the task keyboard the text given to [int] is "success_<id>". *)
Theorem report_callback_never_writes
    (int_ : string → option Z) (e : env) (user_id : Z) (w : world) :
  (∀ callback_data,
     (callbacks.handle_user_task_response int_ e user_id callback_data w).2
     = w)
  ∧ (∀ task_id,
       (callbacks.decode_user int_) <$>
         keyboards.get_user_task_response_keyboard task_id
       = [ (λ n, ("user_task", n)) <$>
             int_ ("success_" +:+ pretty task_id) ]).
Proof.
  split.
  - intros callback_data. unfold callbacks.handle_user_task_response.
    destruct (callbacks.decode_user int_ callback_data)
      as [[action task]|] eqn:Hdec; [|done].
    apply decode_user_action in Hdec.
    unfold handlers_user.handle_user_task_response.
    rewrite !count_differs_neq by (rewrite Hdec; simpl; lia).
    repeat case_match; by simplify_eq.
  - intros task_id. unfold callbacks.decode_user. simpl.
    by destruct (int_ _).
Qed.

(** ** The buttons, as the handlers decode them

    Python's [int] on what the handlers hand it. *)

Example int_7 : python.int "7" = Some 7.
Proof. reflexivity. Qed.

Example int_underscore : python.int " -1_000 " = Some (-1000).
Proof. reflexivity. Qed.

Example int_confirm_7 : python.int "confirm_7" = None.
Proof. reflexivity. Qed.

(** A text that begins with a letter of an action is no number. *)
Lemma int_of_action (action : string) (response_id : Z) :
  action ∈ ["confirm_"; "reject_"; "mark_"; "cancel_"] →
  python.int (action +:+ pretty response_id) = None.
Proof.
  intros Hin. repeat (apply elem_of_cons in Hin as [->|Hin]; [reflexivity|]).
  by apply elem_of_nil in Hin.
Qed.

(** Every button of the two admin keyboards, pressed by an admin, ends in
    the answer to a parse error. *)
Lemma moderation_button_parse_error e admin_id response_id w data :
  admin_id ∈ admins (store w) →
  data ∈ keyboards.get_admin_moderation_keyboard response_id →
  callbacks.handle_admin_moderation python.int e admin_id data w = (None, w).
Proof.
  intros Hadmin Hdata.
  unfold callbacks.handle_admin_moderation, utils.admin_required.
  rewrite bool_decide_eq_true_2 by done.
  unfold keyboards.get_admin_moderation_keyboard in Hdata.
  repeat (apply elem_of_cons in Hdata as [->|Hdata]; [reflexivity|]).
  by apply elem_of_nil in Hdata.
Qed.

Lemma slyot_button_parse_error e admin_id response_id can_cancel w data :
  admin_id ∈ admins (store w) →
  data ∈ keyboards.get_admin_slyot_keyboard response_id can_cancel →
  callbacks.handle_admin_slyot_action python.int e admin_id data w
  = (None, w).
Proof.
  intros Hadmin Hdata.
  unfold callbacks.handle_admin_slyot_action, utils.admin_required.
  rewrite bool_decide_eq_true_2 by done.
  unfold keyboards.get_admin_slyot_keyboard in Hdata.
  destruct can_cancel; simpl in Hdata;
    repeat (apply elem_of_cons in Hdata as [->|Hdata]; [reflexivity|]);
    by apply elem_of_nil in Hdata.
Qed.

(** C1, at the handlers as they are registered.  In [before_report], the
    state after [/start] and a broadcast, response 1 is in [pending_user];
    in [confirmed_world] it is confirmed: the guard of confirm, of reject
    and of cancel-slyot is violated; in [slyot_world] the guard of
    mark-slyot is.  The admin presses the button of each operation:
    whatever the outside answers, the handler replies to a parse error
    ([None]), not with the refusal, and changes nothing. *)
Theorem guard_violation_gets_parse_error (e : env) :
  callbacks.handle_admin_moderation python.int e 100 "admin_mod_confirm_1"
    before_report = (None, before_report)
  ∧ (∃ r, responses (store before_report) !! 1 = Some r
          ∧ status r = "pending_user")
  ∧ callbacks.handle_admin_moderation python.int e 100 "admin_mod_confirm_1"
    confirmed_world = (None, confirmed_world)
  ∧ callbacks.handle_admin_moderation python.int e 100 "admin_mod_reject_1"
      confirmed_world = (None, confirmed_world)
  ∧ callbacks.handle_admin_slyot_action python.int e 100
      "admin_slyot_cancel_1" confirmed_world = (None, confirmed_world)
  ∧ callbacks.handle_admin_slyot_action python.int e 100
      "admin_slyot_mark_1" slyot_world = (None, slyot_world)
  ∧ keyboards.get_admin_moderation_keyboard 1
    = ["admin_mod_confirm_1"; "admin_mod_reject_1"]
  ∧ keyboards.get_admin_slyot_keyboard 1 true = ["admin_slyot_cancel_1"]
  ∧ keyboards.get_admin_slyot_keyboard 1 false = ["admin_slyot_mark_1"].
Proof.
  split; [|split; [|split; [|split; [|split; [|split]]]]].
  - apply (moderation_button_parse_error e 100 1); [|by left].
    apply (bool_decide_unpack _). vm_compute. exact I.
  - eexists. split; [vm_compute; reflexivity|reflexivity].
  - apply (moderation_button_parse_error e 100 1); [set_solver|by left].
  - apply (moderation_button_parse_error e 100 1);
      [set_solver|by right; left].
  - apply (slyot_button_parse_error e 100 1 true); [set_solver|by left].
  - apply (slyot_button_parse_error e 100 1 false); [set_solver|by left].
  - repeat split; reflexivity.
Qed.

(** C5, at the handler as it is registered.  Response 1 is a slyot and its
    timer is armed (it runs until 304); the admin presses the cancel button
    in time:
    the handler replies to a parse error, the response stays a slyot, the
    counters stay and the timer stays armed. *)
Theorem cancel_button_never_cancels (e : env) :
  now e < 304 →
  (∃ r, responses (store slyot_world) !! 1 = Some r ∧ status r = "slyot")
  ∧ utils.check_slyot_cancel_timer (now e) 1 (redis_client slyot_world) = true
  ∧ callbacks.handle_admin_slyot_action python.int e 100
      "admin_slyot_cancel_1" slyot_world = (None, slyot_world).
Proof.
  intros Hnow. split; [|split].
  - eexists. split; [reflexivity|reflexivity].
  - apply check_timer_true. eexists _, 304. by repeat split.
  - apply (slyot_button_parse_error e 100 1 true); [set_solver|by left].
Qed.

Lemma cancel_button_never_cancels_witness :
  callbacks.handle_admin_slyot_action python.int (delivering 5) 100
    "admin_slyot_cancel_1" slyot_world = (None, slyot_world).
Proof.
  apply (proj2 (proj2 (cancel_button_never_cancels (delivering 5) eq_refl))).
Defined.

(** C8, at the handler as it is registered.  Without a connection to Redis
    (no client, or a server out of reach) arming fails softly and the check
    says no; but the press of the mark button on the confirmed response ends
    in the answer to a parse error, and the response stays confirmed. *)
Theorem mark_button_never_marks (e : env) (keys : gmap string Z) :
  let down := Some (redis.mkRedis false keys) in
  utils.set_slyot_cancel_timer (now e) 300 1 None = (false, None)
  ∧ utils.set_slyot_cancel_timer (now e) 300 1 down = (false, down)
  ∧ utils.check_slyot_cancel_timer (now e) 1 None = false
  ∧ utils.check_slyot_cancel_timer (now e) 1 down = false
  ∧ callbacks.handle_admin_slyot_action python.int e 100
      "admin_slyot_mark_1" confirmed_world_without_redis
    = (None, confirmed_world_without_redis)
  ∧ callbacks.handle_admin_slyot_action python.int e 100
      "admin_slyot_mark_1" (set_redis down confirmed_world_without_redis)
    = (None, set_redis down confirmed_world_without_redis).
Proof.
  intros down. repeat split; reflexivity.
Qed.

(** C9, at the handler as it is registered.  Response 1 waits for the
    admin's decision; the buttons confirm and reject are pressed one after
    the other, in either order: both presses end in the answer to a parse
    error, neither decision is taken, no counter moves.  The handler raises
    before it opens its session, so that nothing depends on how the two
    runs interleave. *)
Theorem two_decisions_both_fail (e1 e2 : env) :
  let press e data w :=
    callbacks.handle_admin_moderation python.int e 100 data w in
  press e1 "admin_mod_confirm_1" pending_operator_world
  = (None, pending_operator_world)
  ∧ press e2 "admin_mod_reject_1"
      (press e1 "admin_mod_confirm_1" pending_operator_world).2
    = (None, pending_operator_world)
  ∧ press e1 "admin_mod_reject_1" pending_operator_world
    = (None, pending_operator_world)
  ∧ press e2 "admin_mod_confirm_1"
      (press e1 "admin_mod_reject_1" pending_operator_world).2
    = (None, pending_operator_world)
  ∧ users (store pending_operator_world) !! 1 = Some (mkUser true 0 0).
Proof.
  intros press. subst press. cbv beta.
  rewrite !(moderation_button_parse_error e1 100 1 pending_operator_world)
    by (first [set_solver | by left | by right; left]).
  cbn [snd].
  rewrite !(moderation_button_parse_error e2 100 1 pending_operator_world)
    by (first [set_solver | by left | by right; left]).
  repeat split; reflexivity.
Qed.


(** Past the decoding: the cancellation, given the action as a value, when
    the connection to Redis is lost between [r.exists] and [r.delete].  The
    [delete] raises and is swallowed, the response is confirmed again, and
    the key is still there. *)
Example swallowed_delete_keeps_key :
  let e := mkEnv 5 true (λ chat, inl (1000 + chat)) (λ _, None) None None
                 None None (Some false) in
  let result :=
    handlers_admin.handle_admin_slyot_action e 100
      constants.CB_ADMIN_CANCEL_SLYOT 1 slyot_world in
  result.1 = handlers_admin.SlyotCanceled None
  ∧ status <$> responses (store result.2) !! 1 = Some "confirmed"
  ∧ redis_client result.2
    = Some (redis.mkRedis false {[utils.timer_key 1 := 304]}).
Proof. vm_compute. repeat split. Qed.

(** ** All or nothing *)

(** X4.  A request whose commit raises (for a broadcast also: whose
    message to the admin before the commit raises) leaves the whole world as
    it was, one case apart: a cancellation has already sent its [delete] to
    Redis when its commit fails. *)
Theorem failed_commit_writes_nothing (q : request) (w : world) :
  commit_raises q = true →
  handle q w = w
  ∨ ∃ e admin_id response_id,
      q = AdminSlyot e admin_id constants.CB_ADMIN_CANCEL_SLYOT response_id
      ∧ handle q w
        = set_redis
            (utils.clear_slyot_cancel_timer response_id
               (redis.turn (redis_between e) <$> redis_client w)) w.
Proof.
  destruct q as [e u|e u b|e u a t|e a p|e a act i|e a act i|a|up];
    simpl; try done.
  - intros Hfail%negb_true_iff. left. unfold handlers_common.start, commit.
    rewrite Hfail. repeat case_match; by simplify_eq.
  - intros Hfail%negb_true_iff. left.
    unfold handlers_user.toggle_user_bot_status, commit.
    rewrite Hfail. repeat case_match; by simplify_eq.
  - intros Hfail%negb_true_iff. left.
    destruct (user_task_response_cases e u a t w)
      as [Hsame|(i & r & _ & _ & Hc)]; [done|].
    apply commit_Some_ok in Hc. congruence.
  - intros Hfail. left. unfold utils.admin_required.
    destruct (bool_decide (a ∈ admins (store w))); [|done].
    unfold handlers_admin.send_photo_execute, commit.
    apply orb_true_iff in Hfail as [Hfail%negb_true_iff|Hfail].
    + rewrite Hfail. repeat case_match; by simplify_eq.
    + apply bool_decide_eq_true_1 in Hfail as [x Hx]. rewrite Hx.
      repeat case_match; by simplify_eq.
  - intros Hfail%negb_true_iff. left. unfold utils.admin_required.
    case_bool_decide; [|done].
    unfold handlers_admin.handle_admin_moderation, commit.
    rewrite Hfail. repeat case_match; by simplify_eq.
  - intros Hfail%negb_true_iff. unfold utils.admin_required.
    case_bool_decide; [|by left].
    unfold handlers_admin.handle_admin_slyot_action, commit.
    rewrite Hfail.
    destruct (act =? constants.CB_ADMIN_CANCEL_SLYOT)%string eqn:Hact.
    + apply String.eqb_eq in Hact as ->.
      repeat case_match; simplify_eq; try by left.
      right. by exists e, a, i.
    + left. repeat case_match; by simplify_eq.
Qed.

Lemma failed_commit_writes_nothing_witness :
  handle (Start (failing_commit 0) 1) fresh_world = fresh_world
  ∨ ∃ e admin_id response_id,
      Start (failing_commit 0) 1
      = AdminSlyot e admin_id constants.CB_ADMIN_CANCEL_SLYOT response_id
      ∧ handle (Start (failing_commit 0) 1) fresh_world
        = set_redis
            (utils.clear_slyot_cancel_timer response_id
               (redis.turn (redis_between e) <$> redis_client fresh_world))
            fresh_world.
Proof.
  apply (failed_commit_writes_nothing (Start (failing_commit 0) 1)
           fresh_world).
  reflexivity.
Defined.

(** ** The admins *)

Lemma send_to_user_admins e task acc u :
  admins (handlers_admin.session (handlers_admin.send_to_user e task acc u))
  = admins (handlers_admin.session acc).
Proof.
  unfold handlers_admin.send_to_user. by repeat case_match.
Qed.

Lemma fanout_admins e task recipients :
  ∀ acc,
    admins (handlers_admin.session
              (foldl (handlers_admin.send_to_user e task) acc recipients))
    = admins (handlers_admin.session acc).
Proof.
  induction recipients as [|u recipients IH]; intros acc; cbn [foldl];
    [done|].
  by rewrite IH, send_to_user_admins.
Qed.

Lemma step_admins d d' : step d d' → admins d' = admins d.
Proof.
  destruct 1; try done. by rewrite fanout_admins.
Qed.

Lemma commits_admins d l d' : commits d l d' → admins d' = admins d.
Proof.
  induction 1 as [|d d1 l d' Hstep _ IH]; [done|].
  rewrite IH. by apply step_admins.
Qed.

Lemma run_admins qs w : admins (store (run qs w)) = admins (store w).
Proof.
  destruct (run_traces qs w) as (l & _ & Hl). by eapply commits_admins.
Qed.

(** X5.  No handler adds an admin: whoever is not in the admins table is
    refused by every decorated handler, after any requests of anybody, and
    the refused request changes nothing. *)
Theorem outsider_is_refused_forever
    (caller : Z) (qs : list request) (q : request) (w : world) :
  caller ∉ admins (store w) →
  decorated_caller q = Some caller →
  handle q (run qs w) = run qs w.
Proof.
  intros Hout Hq.
  assert (caller ∉ admins (store (run qs w))) as Hout'
    by by rewrite run_admins.
  destruct q; simplify_eq/=; unfold utils.admin_required;
    by rewrite bool_decide_eq_false_2.
Qed.

Lemma outsider_is_refused_forever_witness :
  handle (AdminModeration (delivering 3) 1 constants.CB_ADMIN_CONFIRM 1)
         (run [report_notified] before_report)
  = run [report_notified] before_report.
Proof.
  apply (outsider_is_refused_forever 1 [report_notified]
           (AdminModeration (delivering 3) 1 constants.CB_ADMIN_CONFIRM 1)
           before_report).
  - unfold before_report. rewrite run_admins. simpl. set_solver.
  - reflexivity.
Defined.

(** ** What no request undoes *)

Lemma step_same_owners d d' : step d d' → same_owners d d'.
Proof.
  intros Hstep i r Hi.
  destruct Hstep as [u Hu|u user b Hu|j rj Hj Hs
                    |j rj user s f Hj Hu Hm|e admin_id photo task flushed].
  1,2: by exists r.
  1-2: simpl; unfold handlers_admin.transition; simpl;
       destruct (decide (i = j)) as [->|Hne];
       [rewrite lookup_insert_eq; simplify_eq; by eexists
       |rewrite lookup_insert_ne by done; by exists r].
  exists r. split; [|done]. by apply fanout_old_row.
Qed.

Lemma same_owners_trans d1 d2 d3 :
  same_owners d1 d2 → same_owners d2 d3 → same_owners d1 d3.
Proof.
  intros H12 H23 i r Hi.
  destruct (H12 i r Hi) as (r2 & Hi2 & Hu2 & Ht2).
  destruct (H23 i r2 Hi2) as (r3 & Hi3 & Hu3 & Ht3).
  exists r3. split; [done|]. split; congruence.
Qed.

Lemma commits_same_owners d l d' : commits d l d' → same_owners d d'.
Proof.
  induction 1 as [d|d d1 l d' Hstep _ IH].
  - intros i r Hi. by exists r.
  - eapply same_owners_trans; [by apply step_same_owners|done].
Qed.

(** X6.  No request deletes a response or gives it to another user or
    another task. *)
Theorem responses_keep_their_owner (qs : list request) (w : world) :
  same_owners (store w) (store (run qs w)).
Proof.
  destruct (run_traces qs w) as (l & _ & Hl). by eapply commits_same_owners.
Qed.

Lemma commits_rejected d l d' :
  commits d l d' →
  ∀ i r, responses d !! i = Some r → status r = "rejected" →
    ∃ r', responses d' !! i = Some r' ∧ status r' = "rejected".
Proof.
  induction 1 as [d|d d1 l d' Hstep _ IH]; intros i r Hi Hs.
  - by exists r.
  - destruct (step_status_moves _ _ Hstep) as [Hold _].
    destruct (Hold i r Hi) as (r1 & Hi1 & [Hsame|Hedge]).
    + apply (IH i r1 Hi1). congruence.
    + rewrite Hs in Hedge. inversion Hedge.
Qed.

(** X7.  [rejected] is final: a rejected response stays rejected whatever
    requests follow. *)
Theorem rejected_is_final
    (qs : list request) (w : world) (i : Z) (r : Response) :
  responses (store w) !! i = Some r → status r = "rejected" →
  ∃ r', responses (store (run qs w)) !! i = Some r' ∧ status r' = "rejected".
Proof.
  intros Hi Hs. destruct (run_traces qs w) as (l & _ & Hl).
  by eapply commits_rejected.
Qed.

Lemma rejected_is_final_witness :
  ∃ r', responses
          (store (run [AdminModeration (delivering 4) 100
                         constants.CB_ADMIN_CONFIRM 1] rejected_world)) !! 1
        = Some r'
        ∧ status r' = "rejected".
Proof.
  apply (rejected_is_final
           [AdminModeration (delivering 4) 100 constants.CB_ADMIN_CONFIRM 1]
           rejected_world 1 rejected_row).
  - vm_compute. reflexivity.
  - reflexivity.
Defined.

(** ** One response for a user and a task *)

Lemma unique_update d i r r' :
  responses d !! i = Some r →
  user_telegram_id r' = user_telegram_id r → task_id r' = task_id r →
  unique_responses d →
  unique_responses (set_responses (insert i r') d).
Proof.
  intros Hi Hu Ht Huniq a b ra rb. simpl.
  destruct (decide (a = i)) as [->|Ha], (decide (b = i)) as [->|Hb];
    [done|..].
  - rewrite lookup_insert_eq, lookup_insert_ne by done.
    intros ? Hb' ? ?. simplify_eq. apply (Huniq i b r rb); congruence.
  - rewrite lookup_insert_eq, lookup_insert_ne by done.
    intros Ha' ? ? ?. simplify_eq. apply (Huniq a i ra r); congruence.
  - rewrite !lookup_insert_ne by done. apply Huniq.
Qed.

Lemma have_tasks_update d i r r' :
  responses d !! i = Some r → task_id r' = task_id r →
  responses_have_tasks d →
  responses_have_tasks (set_responses (insert i r') d).
Proof.
  intros Hi Ht Hfk a ra. simpl.
  destruct (decide (a = i)) as [->|Ha].
  - rewrite lookup_insert_eq. intros ?. simplify_eq. rewrite Ht. by eapply Hfk.
  - rewrite lookup_insert_ne by done. apply Hfk.
Qed.

Lemma send_to_user_rows e task acc u :
  let acc' := handlers_admin.send_to_user e task acc u in
  tasks (handlers_admin.session acc') = tasks (handlers_admin.session acc)
  ∧ (responses (handlers_admin.session acc')
     = responses (handlers_admin.session acc)
     ∨ ∃ m, responses (handlers_admin.session acc')
            = <[next_id (responses (handlers_admin.session acc))
                := mkResponse u task "pending_user" None (Some m)]>
                (responses (handlers_admin.session acc))).
Proof.
  unfold handlers_admin.send_to_user.
  repeat case_match; simpl; (split; [done|]); try by left.
  right. by eexists.
Qed.

Lemma fanout_unique e task recipients :
  NoDup recipients →
  ∀ acc,
    is_Some (tasks (handlers_admin.session acc) !! task) →
    unique_responses (handlers_admin.session acc) →
    responses_have_tasks (handlers_admin.session acc) →
    (∀ i r, responses (handlers_admin.session acc) !! i = Some r →
       task_id r = task → user_telegram_id r ∉ recipients) →
    let acc' := foldl (handlers_admin.send_to_user e task) acc recipients in
    unique_responses (handlers_admin.session acc')
    ∧ responses_have_tasks (handlers_admin.session acc').
Proof.
  induction 1 as [|u recipients Hu Hnd IH]; intros acc Htask Huniq Hfk Hnew;
    cbn [foldl]; [done|].
  destruct (send_to_user_rows e task acc u) as [Ht [Hr|[m Hr]]].
  - apply IH.
    + by rewrite Ht.
    + intros i j r r'. rewrite Hr. apply Huniq.
    + intros i r. rewrite Hr, Ht. apply Hfk.
    + intros i r. rewrite Hr. intros Hi Hit Hin.
      apply (Hnew i r Hi Hit). by apply elem_of_cons; right.
  - pose proof (next_id_fresh (responses (handlers_admin.session acc)))
      as Hfresh.
    set (n := next_id (responses (handlers_admin.session acc))) in *.
    apply IH.
    + by rewrite Ht.
    + intros i j r r'. rewrite Hr.
      destruct (decide (i = n)) as [->|Hi], (decide (j = n)) as [->|Hj];
        [done|..].
      * rewrite lookup_insert_eq, lookup_insert_ne by done.
        intros [= <-] Hj' Huser Htask'. simpl in *.
        destruct (Hnew j r' Hj' (eq_sym Htask')).
        rewrite <- Huser. by apply elem_of_cons; left.
      * rewrite lookup_insert_eq, lookup_insert_ne by done.
        intros Hi' [= <-] Huser Htask'. simpl in *.
        destruct (Hnew i r Hi' Htask').
        rewrite Huser. by apply elem_of_cons; left.
      * rewrite !lookup_insert_ne by done. apply Huniq.
    + intros i r. rewrite Hr, Ht.
      destruct (decide (i = n)) as [->|Hi].
      * rewrite lookup_insert_eq. intros ?. by simplify_eq/=.
      * rewrite lookup_insert_ne by done. apply Hfk.
    + intros i r. rewrite Hr.
      destruct (decide (i = n)) as [->|Hi].
      * rewrite lookup_insert_eq. intros ? _. by simplify_eq/=.
      * rewrite lookup_insert_ne by done. intros Hi' Hit Hin.
        apply (Hnew i r Hi' Hit). by apply elem_of_cons; right.
Qed.

Lemma step_unique d d' :
  step d d' →
  unique_responses d ∧ responses_have_tasks d →
  unique_responses d' ∧ responses_have_tasks d'.
Proof.
  intros Hstep [Huniq Hfk].
  destruct Hstep as [u Hu|u user b Hu|j rj Hj Hs
                    |j rj user s f Hj Hu Hm|e admin_id photo task flushed].
  1,2: done.
  1: split; [by eapply unique_update|by eapply have_tasks_update].
  - split.
    + by apply (unique_update
                  (set_users (insert (user_telegram_id rj) (f user)) d)
                  j rj).
    + by apply (have_tasks_update
                  (set_users (insert (user_telegram_id rj) (f user)) d)
                  j rj).
  - apply fanout_unique.
    + apply active_users_NoDup.
    + simpl. subst flushed. simpl. rewrite lookup_insert_eq. by eexists.
    + done.
    + intros i r Hi. simpl in Hi. destruct (Hfk i r Hi) as [t Ht].
      exists t. subst flushed. simpl.
      rewrite lookup_insert_ne; [done|].
      intros Heq. pose proof (next_id_fresh (tasks d)) as Hfresh.
      fold task in Hfresh. congruence.
    + intros i r Hi Hit _. simpl in Hi. destruct (Hfk i r Hi) as [t Ht].
      pose proof (next_id_fresh (tasks d)) as Hfresh.
      fold task in Hfresh. congruence.
Qed.

Lemma commits_unique d l d' :
  commits d l d' →
  unique_responses d ∧ responses_have_tasks d →
  unique_responses d' ∧ responses_have_tasks d'.
Proof.
  induction 1 as [|d d1 l d' Hstep _ IH]; [done|].
  intros Hd. by apply IH, (step_unique d).
Qed.

Lemma run_unique qs w :
  unique_responses (store w) ∧ responses_have_tasks (store w) →
  unique_responses (store (run qs w))
  ∧ responses_have_tasks (store (run qs w)).
Proof.
  destruct (run_traces qs w) as (l & _ & Hl). by apply (commits_unique _ l).
Qed.

Lemma responses_of_unique user_id task d :
  unique_responses d →
  (length (handlers_user.responses_of user_id task d) ≤ 1)%nat.
Proof.
  intros Huniq. unfold handlers_user.responses_of.
  pose proof (NoDup_fst_map_to_list (responses d)) as Hnd.
  assert (∀ x y,
            x ∈ filter (λ kv, user_telegram_id kv.2 = user_id
                              ∧ task_id kv.2 = task)
                       (map_to_list (responses d)) →
            y ∈ filter (λ kv, user_telegram_id kv.2 = user_id
                              ∧ task_id kv.2 = task)
                       (map_to_list (responses d)) →
            x = y) as Hsame.
  { intros [i r] [j r'] [[Hu Ht] Hx]%list_elem_of_filter
           [[Hu' Ht'] Hy]%list_elem_of_filter.
    apply elem_of_map_to_list in Hx, Hy. simpl in *.
    assert (i = j) as -> by (apply (Huniq i j r r'); congruence).
    congruence. }
  assert (NoDup (filter (λ kv, user_telegram_id kv.2 = user_id
                               ∧ task_id kv.2 = task)
                        (map_to_list (responses d)))) as Hnd'
    by apply NoDup_filter, NoDup_map_to_list.
  destruct (filter _ _) as [|x [|y l]]; simpl; [lia..|].
  apply NoDup_cons in Hnd' as [Hx _].
  destruct Hx. rewrite (Hsame x y); [by left|by left|by right; left].
Qed.

Lemma reachable_unique
    (admin_ids : gset Z) (rc : option redis.redis_server) (ttl : Z)
    (qs : list request) :
  unique_responses (store (run qs (initial_world admin_ids rc ttl)))
  ∧ responses_have_tasks (store (run qs (initial_world admin_ids rc ttl))).
Proof. apply run_unique. split; by intros i j r. Qed.

(** X8.  In every state a deployment reaches, a user has at most one
    response for a task (a broadcast creates its task under a fresh
    identifier and sends to each active user once), so the query of
    [handle_user_task_response], which expects one row or none, never finds
    several; and every response refers to a task that exists. *)
Theorem one_response_per_user_and_task
    (admin_ids : gset Z) (rc : option redis.redis_server) (ttl : Z)
    (qs : list request) :
  let d := store (run qs (initial_world admin_ids rc ttl)) in
  (∀ user_id task,
     (length (handlers_user.responses_of user_id task d) ≤ 1)%nat)
  ∧ unique_responses d
  ∧ responses_have_tasks d.
Proof.
  intros d.
  destruct (reachable_unique admin_ids rc ttl qs)
    as [Huniq Hfk].
  split; [|done]. intros user_id task. by apply responses_of_unique.
Qed.

(** X9.  So a report whose commits go through is never answered with the
    database error: the one way left to it would be several rows for the
    user and the task. *)
Theorem report_finds_one_row_or_none
    (admin_ids : gset Z) (rc : option redis.redis_server) (ttl : Z)
    (qs : list request) (e : env) (user_id : Z) (action : string) (task : Z) :
  commit_ok e = true →
  (handlers_user.handle_user_task_response e user_id action task
     (run qs (initial_world admin_ids rc ttl))).1
  ≠ handlers_user.DatabaseError.
Proof.
  intros Hok.
  destruct (reachable_unique admin_ids rc ttl qs)
    as [Huniq _].
  pose proof (responses_of_unique user_id task _ Huniq) as Hlen.
  unfold handlers_user.handle_user_task_response, commit.
  rewrite Hok.
  destruct (handlers_user.responses_of _ _ _) as [|[i r] [|? ?]];
    [done| |simpl in Hlen; lia].
  repeat case_match; by simplify_eq.
Qed.

Lemma report_finds_one_row_or_none_witness :
  (handlers_user.handle_user_task_response (delivering 2) 1
     constants.CB_USER_TASK_SUCCESS 1
     (run (take 2 report_without_admin)
        (initial_world {[100]} (Some (redis.mkRedis true ∅)) 300))).1
  ≠ handlers_user.DatabaseError.
Proof.
  apply (report_finds_one_row_or_none {[100]} (Some (redis.mkRedis true ∅))
           300 (take 2 report_without_admin) (delivering 2) 1
           constants.CB_USER_TASK_SUCCESS 1).
  reflexivity.
Defined.

(** ** The statistics *)

Lemma sum_keys_insert g (m : gmap Z User) k user :
  m !! k = None → sum_keys g (<[k:=user]> m) = g k + sum_keys g m.
Proof.
  intros Hk. unfold sum_keys.
  rewrite map_fold_insert_L; [done| |done].
  intros. lia.
Qed.

Lemma sum_users_insert column (m : gmap Z User) k user :
  m !! k = None →
  statistics.sum_users column (<[k:=user]> m)
  = column user + statistics.sum_users column m.
Proof.
  intros Hk. unfold statistics.sum_users.
  rewrite map_fold_insert_L; [done| |done].
  intros. lia.
Qed.

(** The sum of a column is the sum over the keys of what the column holds
    for each key. *)
Lemma sum_users_keys column g (m : gmap Z User) :
  (∀ k user, m !! k = Some user → column user = g k) →
  statistics.sum_users column m = sum_keys g m.
Proof.
  induction m as [|k user m Hk _ IH] using map_first_key_ind.
  - done.
  - intros Hg. rewrite sum_users_insert, sum_keys_insert by done.
    rewrite IH.
    + f_equal. apply Hg. apply lookup_insert_eq.
    + intros k' user' Hk'. apply Hg. rewrite lookup_insert_ne; [done|].
      congruence.
Qed.

Lemma sum_keys_zero g (m : gmap Z User) :
  (∀ k, g k = 0) → sum_keys g m = 0.
Proof.
  intros Hg. induction m as [|k user m Hk _ IH] using map_first_key_ind.
  - done.
  - rewrite sum_keys_insert by done. rewrite Hg, IH. done.
Qed.

Lemma sum_keys_plus g1 g2 g (m : gmap Z User) :
  (∀ k, g k = g1 k + g2 k) →
  sum_keys g m = sum_keys g1 m + sum_keys g2 m.
Proof.
  intros Hg. induction m as [|k user m Hk _ IH] using map_first_key_ind.
  - done.
  - rewrite !sum_keys_insert by done. rewrite Hg, IH. lia.
Qed.

(** Summing over the keys the indicator of one key counts that key. *)
Lemma sum_keys_indicator u b (m : gmap Z User) :
  sum_keys (λ k, ind (bool_decide (u = k) && b)) m
  = match m !! u with Some _ => ind b | None => 0 end.
Proof.
  induction m as [|k user m Hk _ IH] using map_first_key_ind.
  - done.
  - rewrite sum_keys_insert by done. rewrite IH.
    destruct (decide (u = k)) as [->|Hne].
    + rewrite lookup_insert_eq, Hk, bool_decide_eq_true_2 by done. simpl. lia.
    + rewrite lookup_insert_ne, bool_decide_eq_false_2 by done. simpl.
      by destruct (m !! u).
Qed.

Lemma count_all_insert P (m : gmap Z Response) i r :
  m !! i = None → count_all P (<[i:=r]> m) = count_all P m + ind (P (status r)).
Proof.
  intros Hi. unfold count_all. rewrite map_filter_insert. simpl.
  destruct (decide (P (status r) = true)) as [HP|HP].
  - rewrite HP, map_size_insert, map_lookup_filter_None_2 by by left.
    simpl. lia.
  - apply not_true_is_false in HP. rewrite HP, delete_id by done.
    simpl. lia.
Qed.

(** Summed over the users, the responses counted for each user are the
    responses counted in the whole table, when every response has its user. *)
Lemma sum_counts P (m : gmap Z User) (rows : gmap Z Response) :
  (∀ i r, rows !! i = Some r → is_Some (m !! user_telegram_id r)) →
  sum_keys (λ k, count_responses P k rows) m = count_all P rows.
Proof.
  induction rows as [|i r rows Hi IH] using map_ind; intros Hfk.
  - rewrite sum_keys_zero by (intros; apply count_empty).
    unfold count_all. by rewrite map_filter_empty, map_size_empty.
  - rewrite (sum_keys_plus (λ k, count_responses P k rows)
               (λ k, ind (bool_decide (user_telegram_id r = k)
                          && P (status r)))).
    + rewrite IH.
      * rewrite sum_keys_indicator, count_all_insert by done.
        destruct (Hfk i r) as [user ->]; [apply lookup_insert_eq|done].
      * intros j rj Hj. apply (Hfk j rj).
        rewrite lookup_insert_ne; [done|congruence].
    + intros k. rewrite count_insert, Hi. unfold hit. simpl. lia.
Qed.

(** X10.  In every state a deployment reaches, the totals of
    [global_stats], which are sums of the users' counters, are the numbers
    of responses: [total_success] the confirmed ones, [total_fails] the
    rejected ones and the slyots; and what [stats] shows a user are their
    own confirmed responses, their own rejected ones and slyots, and the
    difference as rating. *)
Theorem statistics_count_responses
    (admin_ids : gset Z) (rc : option redis.redis_server) (ttl : Z)
    (qs : list request) :
  let w := run qs (initial_world admin_ids rc ttl) in
  statistics.total_success (statistics.global_stats w)
  = count_all is_confirmed (responses (store w))
  ∧ statistics.total_fails (statistics.global_stats w)
    = count_all is_failed (responses (store w))
  ∧ ∀ user_id,
      statistics.stats user_id w
      = (λ _ : User,
           let confirmed :=
             count_responses is_confirmed user_id (responses (store w)) in
           let failed :=
             count_responses is_failed user_id (responses (store w)) in
           (confirmed, failed, confirmed - failed))
        <$> users (store w) !! user_id.
Proof.
  intros w.
  assert (consistent (store w)) as [Hfk Hcount]
    by apply run_consistent, initial_consistent.
  split; [|split].
  - simpl. rewrite <- (sum_counts is_confirmed (users (store w))) by done.
    apply sum_users_keys. intros k user Hk. by apply Hcount.
  - simpl. rewrite <- (sum_counts is_failed (users (store w))) by done.
    apply sum_users_keys. intros k user Hk. by apply Hcount.
  - intros user_id. unfold statistics.stats.
    destruct (users (store w) !! user_id) as [user|] eqn:Hu; [|done].
    simpl. destruct (Hcount user_id user Hu) as [-> ->]. done.
Qed.

(** ** The timer of one response *)

(** X12.  With Redis reachable and a positive timeout, setting the timer of
    a response succeeds; the check for that response is then true exactly
    before the timeout has passed, clearing makes it false at once, and
    neither setting nor clearing changes what the check says for another
    response. *)
Theorem timer_round_trip
    (t0 ttl response_id : Z) (r : redis.redis_server) :
  redis.reachable r = true → 0 < ttl →
  let rc := Some r in
  let set := utils.set_slyot_cancel_timer t0 ttl response_id rc in
  set.1 = true
  ∧ (∀ now, utils.check_slyot_cancel_timer now response_id set.2
            = bool_decide (now < t0 + ttl))
  ∧ (∀ now, utils.check_slyot_cancel_timer now response_id
              (utils.clear_slyot_cancel_timer response_id set.2) = false)
  ∧ (∀ now other, other ≠ response_id →
       utils.check_slyot_cancel_timer now other set.2
       = utils.check_slyot_cancel_timer now other rc
       ∧ utils.check_slyot_cancel_timer now other
           (utils.clear_slyot_cancel_timer response_id set.2)
         = utils.check_slyot_cancel_timer now other rc).
Proof.
  intros Hup Httl rc set. subst set rc.
  unfold utils.set_slyot_cancel_timer, utils.clear_slyot_cancel_timer,
    utils.check_slyot_cancel_timer, utils.get_redis_client, redis.setex,
    redis.exists_, redis.delete_.
  rewrite Hup, (proj2 (Z.ltb_lt _ _) Httl). simpl.
  split; [done|]. split; [|split].
  - intros now. rewrite lookup_insert_eq.
    destruct (Z.ltb_spec now (t0 + ttl)).
    + by rewrite bool_decide_eq_true_2.
    + rewrite bool_decide_eq_false_2; [done|lia].
  - intros now. by rewrite lookup_delete_eq.
  - intros now other Hne.
    assert (utils.timer_key response_id ≠ utils.timer_key other) as Hkey.
    { intros Heq. by apply timer_key_inj in Heq. }
    rewrite lookup_delete_ne, !lookup_insert_ne by done. done.
Qed.

Lemma timer_round_trip_witness :
  utils.check_slyot_cancel_timer 299 7
    (utils.set_slyot_cancel_timer 0 300 7 (Some (redis.mkRedis true ∅))).2
  = true.
Proof.
  apply (proj1 (proj2 (timer_round_trip 0 300 7 (redis.mkRedis true ∅)
                         eq_refl eq_refl))).
Defined.

(** ** /start *)

(** X13.  [/start] with a commit that goes through: a second [/start] of the
    same caller changes nothing, whatever its commit does; no existing user
    row is touched (no counter is reset, nobody is reactivated); a caller who
    is neither admin nor user gets a row, active and with both counters 0;
    an admin gets no user row; responses and tasks stay as they are. *)
Theorem start_registers_once (e1 e2 : env) (user_id : Z) (w : world) :
  commit_ok e1 = true →
  let w1 := (handlers_common.start e1 user_id w).2 in
  (handlers_common.start e2 user_id w1).2 = w1
  ∧ (∀ v user, users (store w) !! v = Some user →
       users (store w1) !! v = Some user)
  ∧ (user_id ∉ admins (store w) →
       users (store w1) !! user_id
       = Some (default (mkUser true 0 0) (users (store w) !! user_id)))
  ∧ (user_id ∈ admins (store w) → w1 = w)
  ∧ responses (store w1) = responses (store w)
  ∧ tasks (store w1) = tasks (store w).
Proof.
  intros Hok w1. subst w1. unfold handlers_common.start, commit.
  rewrite Hok.
  destruct (bool_decide (user_id ∈ admins (store w))) eqn:Hadmin.
  - apply bool_decide_eq_true_1 in Hadmin as Hin. simpl. rewrite Hadmin.
    repeat split; try done; try by intros [].
  - apply bool_decide_eq_false_1 in Hadmin as Hout.
    destruct (users (store w) !! user_id) as [user|] eqn:Hu; simpl.
    + rewrite Hadmin, Hu. simpl. repeat split; try done.
    + rewrite Hadmin, lookup_insert_eq. simpl. repeat split; try done.
      all: try apply lookup_insert_eq.
      all: try (intros v user Hv; rewrite lookup_insert_ne;
                [done|congruence]).
Qed.

Lemma start_registers_once_witness :
  (handlers_common.start (failing_commit 1) 1
     (handlers_common.start (delivering 0) 1 fresh_world).2).2
  = (handlers_common.start (delivering 0) 1 fresh_world).2.
Proof.
  apply (proj1 (start_registers_once (delivering 0) (failing_commit 1) 1
                  fresh_world eq_refl)).
Defined.

(** ** The global flag over time *)

Lemma handle_bot_data q w :
  bot_data (handle q w)
  = if is_toggle_by (admins (store w)) q
    then <[config.BOT_ACTIVE_STATE_KEY
           := negb (utils.is_bot_globally_active w)]> (bot_data w)
    else bot_data w.
Proof.
  destruct q as [e u|e u b|e u a t|e a p|e a act i|e a act i|a|up]; simpl.
  - unfold handlers_common.start, commit.
    by repeat case_match; simplify_eq.
  - unfold handlers_user.toggle_user_bot_status, commit.
    by repeat case_match; simplify_eq.
  - destruct (user_task_response_cases e u a t w)
      as [->|(i & r & _ & _ & Hc)]; [done|].
    unfold commit in Hc. destruct (commit_ok e); [|done].
    by injection Hc as <-.
  - unfold utils.admin_required, handlers_admin.send_photo_execute, commit.
    by repeat case_match; simplify_eq.
  - unfold utils.admin_required, handlers_admin.handle_admin_moderation,
      commit.
    by repeat case_match; simplify_eq.
  - unfold utils.admin_required, handlers_admin.handle_admin_slyot_action,
      commit.
    by repeat case_match; simplify_eq.
  - unfold utils.admin_required. by case_bool_decide.
  - by destruct (redis_client w).
Qed.

(** X14.  Only an admin's press of the global toggle changes the global
    flag: after any requests the flag is the flag at the start, turned over
    once for every such press. *)
Theorem flag_follows_admin_toggles (qs : list request) (w : world) :
  utils.is_bot_globally_active (run qs w)
  = xorb (utils.is_bot_globally_active w)
         (Nat.odd (toggles (admins (store w)) qs)).
Proof.
  revert w. induction qs as [|q qs IH]; intros w.
  - simpl. symmetry. apply xorb_false_r.
  - change (run (q :: qs) w) with (run qs (handle q w)).
    rewrite IH.
    assert (admins (store (handle q w)) = admins (store w)) as ->
      by apply (run_admins [q]).
    unfold toggles at 2.
    assert (utils.is_bot_globally_active (handle q w)
            = xorb (utils.is_bot_globally_active w)
                   (is_toggle_by (admins (store w)) q)) as ->.
    { unfold utils.is_bot_globally_active at 1. rewrite handle_bot_data.
      destruct (is_toggle_by (admins (store w)) q).
      - rewrite lookup_insert_eq. simpl. symmetry. apply xorb_true_r.
      - symmetry. apply xorb_false_r. }
    destruct (is_toggle_by (admins (store w)) q) eqn:Hq.
    + rewrite filter_cons_True by done. cbn [length].
      rewrite Nat.odd_succ, <- Nat.negb_odd.
      fold (toggles (admins (store w)) qs).
      generalize (Nat.odd (toggles (admins (store w)) qs)).
      generalize (utils.is_bot_globally_active w). by intros [] [].
    + rewrite filter_cons_False by (by rewrite Hq).
      fold (toggles (admins (store w)) qs).
      generalize (Nat.odd (toggles (admins (store w)) qs)).
      generalize (utils.is_bot_globally_active w). by intros [] [].
Qed.

(** ** A user who has stopped the bot *)

(** The store after [send_photo_execute]: as before, or the session of the
    loop over the active users. *)
Lemma send_photo_store e admin_id photo_file_id w :
  let task := next_id (tasks (store w)) in
  let w' :=
    (handlers_admin.send_photo_execute e admin_id photo_file_id w).2 in
  store w' = store w
  ∨ ∃ photo,
      store w'
      = handlers_admin.session
          (foldl (handlers_admin.send_to_user e task)
             (handlers_admin.mkFanout
                (set_tasks (insert task (mkTask admin_id photo)) (store w))
                0 0)
             (handlers_admin.active_users (store w))).
Proof.
  unfold handlers_admin.send_photo_execute, commit.
  change (handlers_admin.active_users
            (set_tasks _ (store w)))
    with (handlers_admin.active_users (store w)).
  repeat case_match; simplify_eq; simpl; try by left.
  all: right; eexists; try reflexivity.
  all: match goal with
       | H : handlers_admin.active_users _ = _ |- _ => by rewrite H
       end.
Qed.

Lemma update_stopped u user (us : gmap Z User) (rows : gmap Z Response)
    i r r' k user0 user0' :
  rows !! i = Some r → us !! k = Some user0 →
  is_active user0' = is_active user0 →
  us !! u = Some user → is_active user = false →
  (∃ user', <[k:=user0']> us !! u = Some user' ∧ is_active user' = false)
  ∧ ∀ j rj, <[i:=r']> rows !! j = Some rj → user_telegram_id rj = u →
            is_Some (rows !! j).
Proof.
  intros Hi Hk Hf Hu Hoff. split.
  - destruct (decide (u = k)) as [->|Hne].
    + rewrite lookup_insert_eq. eexists. split; [done|]. congruence.
    + rewrite lookup_insert_ne by done. by exists user.
  - intros j rj Hj _. destruct (decide (j = i)) as [->|Hne]; [done|].
    rewrite lookup_insert_ne in Hj by done. by eexists.
Qed.

Lemma handle_stopped u q w user :
  users (store w) !! u = Some user → is_active user = false →
  restarts u q = false →
  (∃ user', users (store (handle q w)) !! u = Some user'
            ∧ is_active user' = false)
  ∧ ∀ i r, responses (store (handle q w)) !! i = Some r →
           user_telegram_id r = u → is_Some (responses (store w) !! i).
Proof.
  intros Hu Hoff Hq.
  assert ((∃ user', users (store w) !! u = Some user'
                    ∧ is_active user' = false)
          ∧ ∀ i r, responses (store w) !! i = Some r →
                   user_telegram_id r = u →
                   is_Some (responses (store w) !! i)) as Hsame
    by (split; [by exists user|by eauto]).
  destruct q as [e v|e v b|e v a t|e a p|e a act i|e a act i|a|up]; simpl.
  - unfold handlers_common.start, commit.
    repeat case_match; simplify_eq; simpl; try exact Hsame.
    split; [|by eauto]. exists user. split; [|done].
    rewrite lookup_insert_ne; [done|congruence].
  - unfold handlers_user.toggle_user_bot_status, commit.
    repeat case_match; simplify_eq; simpl; try exact Hsame.
    split; [|by eauto].
    destruct (decide (v = u)) as [->|Hne].
    + rewrite lookup_insert_eq. eexists. split; [done|]. simpl.
      destruct b; [|done]. simpl in Hq.
      by rewrite bool_decide_eq_true_2 in Hq.
    + rewrite lookup_insert_ne by done. by exists user.
  - destruct (user_task_response_cases e v a t w)
      as [->|(i & r & Hi & _ & Hc)]; [exact Hsame|].
    apply commit_store in Hc. rewrite Hc. simpl.
    split; [by exists user|].
    intros j rj Hj _. destruct (decide (j = i)) as [->|Hne]; [done|].
    rewrite lookup_insert_ne in Hj by done. by eexists.
  - unfold utils.admin_required. case_bool_decide; [|exact Hsame].
    destruct (send_photo_store e a p w) as [Hst|[photo Hst]]; rewrite Hst;
      [exact Hsame|].
    split.
    + rewrite fanout_users. simpl. rewrite Hu.
      destruct (_ && _); simpl; by eexists.
    + intros i r Hi Hr.
      destruct (responses (store w) !! i) as [r0|] eqn:Hold; [by eexists|].
      apply fanout_new_row in Hi as (u' & m & Hin & _ & ->); [|done].
      simpl in Hr. subst u'.
      apply active_users_spec in Hin as (user' & Hu' & Hon). congruence.
  - unfold utils.admin_required. case_bool_decide; [|exact Hsame].
    unfold handlers_admin.handle_admin_moderation, commit.
    repeat case_match; simplify_eq; simpl; try exact Hsame.
    all: eapply update_stopped; eauto.
  - unfold utils.admin_required. case_bool_decide; [|exact Hsame].
    unfold handlers_admin.handle_admin_slyot_action, commit.
    repeat case_match; simplify_eq; simpl; try exact Hsame.
    all: eapply update_stopped; eauto.
  - unfold utils.admin_required. case_bool_decide; exact Hsame.
  - destruct (redis_client w); exact Hsame.
Qed.

(** X15.  A user who has stopped the bot, or whom a broadcast has made
    inactive, stays inactive and gets no new response, whatever requests
    follow, until they press start themselves: no broadcast sends them a
    task, and neither [/start] nor an admin's decision reactivates them. *)
Theorem stopped_user_gets_no_task
    (u : Z) (qs : list request) (w : world) (user : User) :
  users (store w) !! u = Some user → is_active user = false →
  Forall (λ q, restarts u q = false) qs →
  (∃ user', users (store (run qs w)) !! u = Some user'
            ∧ is_active user' = false)
  ∧ ∀ i r, responses (store (run qs w)) !! i = Some r →
           user_telegram_id r = u → is_Some (responses (store w) !! i).
Proof.
  intros Hu Hoff Hqs. revert w user Hu Hoff.
  induction Hqs as [|q qs Hq _ IH]; intros w user Hu Hoff.
  - split; [by exists user|by eauto].
  - change (run (q :: qs) w) with (run qs (handle q w)).
    destruct (handle_stopped u q w user Hu Hoff Hq)
      as [(user1 & Hu1 & Hoff1) Hrows1].
    destruct (IH (handle q w) user1 Hu1 Hoff1) as [Hfinal Hrows].
    split; [done|].
    intros i r Hi Hr. destruct (Hrows i r Hi Hr) as [r1 Hi1].
    destruct (run_traces qs (handle q w)) as (l & _ & Hl).
    destruct (commits_same_owners _ _ _ Hl i r1 Hi1) as (r' & Hi' & Hu' & _).
    apply (Hrows1 i r1 Hi1). congruence.
Qed.

Lemma stopped_user_gets_no_task_witness :
  let w :=
    run [SendPhoto (delivering 2) 100 (Some "photo"); Start (delivering 3) 1]
        stopped_world in
  (∃ user', users (store w) !! 1 = Some user' ∧ is_active user' = false)
  ∧ ∀ i r, responses (store w) !! i = Some r → user_telegram_id r = 1 →
           is_Some (responses (store stopped_world) !! i).
Proof.
  apply (stopped_user_gets_no_task 1
           [SendPhoto (delivering 2) 100 (Some "photo");
            Start (delivering 3) 1]
           stopped_world (mkUser false 0 0)).
  - vm_compute. reflexivity.
  - reflexivity.
  - repeat constructor.
Defined.

(** ** Counters and tasks *)

(** X16.  In every state a deployment reaches, no counter is negative: the
    decrements of [handle_admin_slyot_action] ([success_count] when a slyot
    is marked, [fail_count] when it is taken back) only ever take back an
    earlier increment. *)
Theorem counters_never_negative
    (admin_ids : gset Z) (rc : option redis.redis_server) (ttl : Z)
    (qs : list request) (u : Z) (user : User) :
  users (store (run qs (initial_world admin_ids rc ttl))) !! u = Some user →
  0 ≤ success_count user ∧ 0 ≤ fail_count user.
Proof.
  intros Hu.
  assert (consistent (store (run qs (initial_world admin_ids rc ttl))))
    as [_ Hcount] by apply run_consistent, initial_consistent.
  destruct (Hcount u user Hu) as [-> ->].
  unfold count_responses. lia.
Qed.

Lemma counters_never_negative_witness :
  0 ≤ success_count (mkUser true 1 0) ∧ 0 ≤ fail_count (mkUser true 1 0).
Proof.
  apply (counters_never_negative {[100]} (Some (redis.mkRedis true ∅)) 300
           [Start (delivering 0) 1;
            SendPhoto (delivering 1) 100 (Some "photo");
            report_notified;
            AdminModeration (delivering 3) 100 constants.CB_ADMIN_CONFIRM 1]
           1 (mkUser true 1 0)).
  vm_compute. reflexivity.
Defined.

Lemma step_tasks d d' t task :
  step d d' → tasks d !! t = Some task → tasks d' !! t = Some task.
Proof.
  intros Hstep Ht.
  destruct Hstep as [u Hu|u user b Hu|j rj Hj Hs
                    |j rj user s f Hj Hu Hm|e admin_id photo new flushed];
    try done.
  rewrite fanout_tasks. subst flushed. simpl.
  rewrite lookup_insert_ne; [done|].
  intros Heq. pose proof (next_id_fresh (tasks d)) as Hfresh.
  fold new in Hfresh. congruence.
Qed.

Lemma commits_tasks d l d' t task :
  commits d l d' → tasks d !! t = Some task → tasks d' !! t = Some task.
Proof.
  induction 1 as [|d d1 l d' Hstep _ IH]; [done|].
  intros Ht. by apply IH, (step_tasks d).
Qed.

(** X17.  A task, once created, is never changed and never deleted: a later
    broadcast takes a fresh identifier, and no other handler writes the
    tasks table. *)
Theorem tasks_never_change
    (qs : list request) (w : world) (t : Z) (task : Task) :
  tasks (store w) !! t = Some task →
  tasks (store (run qs w)) !! t = Some task.
Proof.
  intros Ht. destruct (run_traces qs w) as (l & _ & Hl).
  by apply (commits_tasks (store w) l).
Qed.

Lemma tasks_never_change_witness :
  tasks (store (run [SendPhoto (delivering 3) 100 (Some "other")]
                    before_report)) !! 1
  = Some (mkTask 100 "photo").
Proof.
  apply (tasks_never_change [SendPhoto (delivering 3) 100 (Some "other")]
           before_report 1 (mkTask 100 "photo")).
  vm_compute. reflexivity.
Defined.

